(** * Shallow embedding of [npm_detector.py]

    The script reads a CSV list of impacted npm packages, enumerates the
    packages installed globally and in local projects, matches them by name
    and writes a CSV report.  Python strings are modelled as [string]
    (one [ascii] per code point; code points above 255 are outside the
    model), Python dicts as association lists with Python's insertion-order
    semantics, the filesystem as a tree of directories and files, and
    subprocesses as an environment that answers each command. *)

From Stdlib Require Import String Ascii List Bool ZArith Lia.
Import ListNotations.
Open Scope string_scope.
Open Scope list_scope.
Open Scope nat_scope.
Set Warnings "-register-all".


(* ------------------------------------------------------------------ *)
(** ** Python strings *)

Definition chars (s : string) : list ascii := list_ascii_of_string s.
Definition str (cs : list ascii) : string := string_of_list_ascii cs.

Definition ascii_eqb (a b : ascii) : bool := Ascii.eqb a b.

(** The double-quote character. *)
Definition quote : ascii := ascii_of_nat 34.

(** Test helper: writes a single quote of [s] as a double quote. *)
Definition dq (s : string) : string :=
  str (map (fun c => if ascii_eqb c "'" then quote else c) (chars s)).

(** [str.isspace()] on code points 0..255. *)
Definition py_isspace (c : ascii) : bool :=
  let n := nat_of_ascii c in
  ((9 <=? n) && (n <=? 13)) || ((28 <=? n) && (n <=? 32))
  || (n =? 133) || (n =? 160).

Fixpoint lstrip_chars (cs : list ascii) : list ascii :=
  match cs with
  | c :: r => if py_isspace c then lstrip_chars r else cs
  | [] => []
  end.

(** [s.strip()] *)
Definition py_strip (s : string) : string :=
  str (rev (lstrip_chars (rev (lstrip_chars (chars s))))).

(** [s.lower()] on ASCII letters. *)
Definition ascii_lower (c : ascii) : ascii :=
  let n := nat_of_ascii c in
  if (65 <=? n) && (n <=? 90) then ascii_of_nat (n + 32) else c.

Definition py_lower (s : string) : string := str (map ascii_lower (chars s)).

(** [s.startswith(p)] *)
Definition py_startswith (s p : string) : bool := String.prefix p s.

(** [s.find(c)] for a one-character needle: [None] stands for [-1]. *)
Fixpoint find_char (c : ascii) (cs : list ascii) : option nat :=
  match cs with
  | [] => None
  | d :: r =>
      if ascii_eqb c d then Some 0
      else match find_char c r with Some i => Some (S i) | None => None end
  end.

(** Truthiness of a Python [str]. *)
Definition str_truthy (s : string) : bool :=
  match s with EmptyString => false | _ => true end.

(* ------------------------------------------------------------------ *)
(** ** Python dicts as insertion-ordered association lists *)

Section PyDict.
Context {K V : Type} (keqb : K -> K -> bool).

(** [d[k] = v]: an existing key keeps its position (and its original key
    object), a new key is appended. *)
Fixpoint pd_set (k : K) (v : V) (d : list (K * V)) : list (K * V) :=
  match d with
  | [] => [(k, v)]
  | (k', v') :: r => if keqb k k' then (k', v) :: r else (k', v') :: pd_set k v r
  end.

(** [d.get(k)] *)
Fixpoint pd_get (k : K) (d : list (K * V)) : option V :=
  match d with
  | [] => None
  | (k', v') :: r => if keqb k k' then Some v' else pd_get k r
  end.

(** [dict(pairs)] *)
Definition pd_of_pairs (ps : list (K * V)) : list (K * V) :=
  fold_left (fun d kv => pd_set (fst kv) (snd kv) d) ps [].
End PyDict.

(* ------------------------------------------------------------------ *)
(** ** Python's [json.loads]

    Python's decoder ([json.decoder.py_scanner]): objects, arrays,
    strings with escapes, numbers matching
    [-?(0|[1-9]\d* )(\.\d+)?([eE][-+]?\d+)?], [true], [false], [null],
    [NaN], [Infinity], [-Infinity]; whitespace is space, tab, LF and CR;
    anything after the value other than whitespace is an error.  A number
    is kept as its literal text, a [\uXXXX] escape above 255 is kept as
    ['?'].  An object is built with [dict] semantics (last duplicate key
    wins, first position kept). *)

Inductive json : Type :=
| JNull
| JBool (b : bool)
| JNum (lit : string)
| JStr (s : string)
| JArr (l : list json)
| JObj (kvs : list (string * json)).

Definition is_json_ws (c : ascii) : bool :=
  ascii_eqb c " " || ascii_eqb c (ascii_of_nat 9)
  || ascii_eqb c (ascii_of_nat 10) || ascii_eqb c (ascii_of_nat 13).

Fixpoint skip_ws (cs : list ascii) : list ascii :=
  match cs with
  | c :: r => if is_json_ws c then skip_ws r else cs
  | [] => []
  end.

Definition is_digit (c : ascii) : bool :=
  let n := nat_of_ascii c in (48 <=? n) && (n <=? 57).

Definition hex_val (c : ascii) : option nat :=
  let n := nat_of_ascii c in
  if (48 <=? n) && (n <=? 57) then Some (n - 48)
  else if (65 <=? n) && (n <=? 70) then Some (n - 55)
  else if (97 <=? n) && (n <=? 102) then Some (n - 87)
  else None.

Definition unicode_escape (h1 h2 h3 h4 : ascii) : option ascii :=
  match hex_val h1, hex_val h2, hex_val h3, hex_val h4 with
  | Some a, Some b, Some c, Some d =>
      let n := ((a * 16 + b) * 16 + c) * 16 + d in
      Some (if n <? 256 then ascii_of_nat n else "?"%char)
  | _, _, _, _ => None
  end.

(** String body after the opening quote; control characters are refused
    (the decoder's [strict=True]). *)
Fixpoint pstr_body (cs : list ascii) (acc : list ascii)
  : option (list ascii * list ascii) :=
  match cs with
  | [] => None
  | c :: r =>
      if ascii_eqb c quote then Some (rev acc, r)
      else if ascii_eqb c "\" then
        match r with
        | e :: r' =>
            if ascii_eqb e quote || ascii_eqb e "\" || ascii_eqb e "/"
            then pstr_body r' (e :: acc)
            else if ascii_eqb e "b" then pstr_body r' (ascii_of_nat 8 :: acc)
            else if ascii_eqb e "f" then pstr_body r' (ascii_of_nat 12 :: acc)
            else if ascii_eqb e "n" then pstr_body r' (ascii_of_nat 10 :: acc)
            else if ascii_eqb e "r" then pstr_body r' (ascii_of_nat 13 :: acc)
            else if ascii_eqb e "t" then pstr_body r' (ascii_of_nat 9 :: acc)
            else if ascii_eqb e "u" then
              match r' with
              | h1 :: h2 :: h3 :: h4 :: r'' =>
                  match unicode_escape h1 h2 h3 h4 with
                  | Some u => pstr_body r'' (u :: acc)
                  | None => None
                  end
              | _ => None
              end
            else None
        | [] => None
        end
      else if nat_of_ascii c <? 32 then None
      else pstr_body r (c :: acc)
  end.

Fixpoint take_digits (cs : list ascii) : list ascii * list ascii :=
  match cs with
  | c :: r =>
      if is_digit c then let (d, r') := take_digits r in (c :: d, r') else ([], cs)
  | [] => ([], [])
  end.

(** The number regex, matched greedily at the head of [cs]. *)
Definition pnumber (cs : list ascii) : option (list ascii * list ascii) :=
  let '(sign, r0) :=
    match cs with
    | c :: r => if ascii_eqb c "-" then (["-"%char], r) else ([], cs)
    | [] => ([], [])
    end in
  let int_part :=
    match r0 with
    | c :: r =>
        if ascii_eqb c "0" then Some (["0"%char], r)
        else if is_digit c then let (d, r') := take_digits r in Some (c :: d, r')
        else None
    | [] => None
    end in
  match int_part with
  | None => None
  | Some (ip, r1) =>
      let '(frac, r2) :=
        match r1 with
        | c :: r =>
            if ascii_eqb c "." then
              match take_digits r with
              | ([], _) => ([], r1)
              | (d, r') => (c :: d, r')
              end
            else ([], r1)
        | [] => ([], r1)
        end in
      let '(ex, r3) :=
        match r2 with
        | e :: r =>
            if ascii_eqb e "e" || ascii_eqb e "E" then
              let '(sg, r') :=
                match r with
                | s :: r'' => if ascii_eqb s "-" || ascii_eqb s "+" then ([s], r'') else ([], r)
                | [] => ([], r)
                end in
              match take_digits r' with
              | ([], _) => ([], r2)
              | (d, r'') => (e :: sg ++ d, r'')
              end
            else ([], r2)
        | [] => ([], r2)
        end in
      Some (sign ++ ip ++ frac ++ ex, r3)
  end.

Definition lit_prefix (w : string) (cs : list ascii) : option (list ascii) :=
  if String.prefix w (str cs) then Some (skipn (String.length w) cs) else None.

(** [scan_once]; [fuel] bounds the nesting and the number of members. *)
Fixpoint pvalue (fuel : nat) (cs : list ascii) : option (json * list ascii) :=
  match fuel with
  | O => None
  | S f =>
      match cs with
      | [] => None
      | c :: r =>
          if ascii_eqb c quote then
            match pstr_body r [] with
            | Some (s, r') => Some (JStr (str s), r')
            | None => None
            end
          else if ascii_eqb c "{" then
            match skip_ws r with
            | d :: r' => if ascii_eqb d "}" then Some (JObj [], r') else pmembers f (d :: r') []
            | [] => None
            end
          else if ascii_eqb c "[" then
            match skip_ws r with
            | d :: r' => if ascii_eqb d "]" then Some (JArr [], r') else pelements f (d :: r') []
            | [] => None
            end
          else match lit_prefix "null" cs with Some r' => Some (JNull, r') | None =>
               match lit_prefix "true" cs with Some r' => Some (JBool true, r') | None =>
               match lit_prefix "false" cs with Some r' => Some (JBool false, r') | None =>
               match pnumber cs with Some (n, r') => Some (JNum (str n), r') | None =>
               match lit_prefix "NaN" cs with Some r' => Some (JNum "NaN", r') | None =>
               match lit_prefix "Infinity" cs with Some r' => Some (JNum "Infinity", r') | None =>
               match lit_prefix "-Infinity" cs with Some r' => Some (JNum "-Infinity", r') | None =>
               None end end end end end end end
      end
  end
with pmembers (fuel : nat) (cs : list ascii) (acc : list (string * json))
  : option (json * list ascii) :=
  match fuel with
  | O => None
  | S f =>
      match cs with
      | c :: r =>
          if ascii_eqb c quote then
            match pstr_body r [] with
            | Some (k, r1) =>
                match skip_ws r1 with
                | d :: r2 =>
                    if ascii_eqb d ":" then
                      match pvalue f (skip_ws r2) with
                      | Some (v, r3) =>
                          let acc' := pd_set String.eqb (str k) v acc in
                          match skip_ws r3 with
                          | e :: r4 =>
                              if ascii_eqb e "}" then Some (JObj acc', r4)
                              else if ascii_eqb e "," then pmembers f (skip_ws r4) acc'
                              else None
                          | [] => None
                          end
                      | None => None
                      end
                    else None
                | [] => None
                end
            | None => None
            end
          else None
      | [] => None
      end
  end
with pelements (fuel : nat) (cs : list ascii) (acc : list json)
  : option (json * list ascii) :=
  match fuel with
  | O => None
  | S f =>
      match pvalue f cs with
      | Some (v, r1) =>
          match skip_ws r1 with
          | e :: r2 =>
              if ascii_eqb e "]" then Some (JArr (acc ++ [v]), r2)
              else if ascii_eqb e "," then pelements f (skip_ws r2) (acc ++ [v])
              else None
          | [] => None
          end
      | None => None
      end
  end.

(** [json.loads(s)]: [None] is a [JSONDecodeError]. *)
Definition json_loads (s : string) : option json :=
  let cs := chars s in
  match pvalue (2 * length cs + 2) (skip_ws cs) with
  | Some (v, r) => match skip_ws r with [] => Some v | _ => None end
  | None => None
  end.





(* ------------------------------------------------------------------ *)
(** ** Exceptions, subprocesses and the filesystem *)

(** The Python exceptions the script can meet. *)
Inductive exn : Type :=
| JSONDecodeError
| AttributeError
| TypeError
| OSError
| CsvError.

Inductive result (A : Type) : Type :=
| Ok (a : A)
| Raise (e : exn).
Arguments Ok {A} a.
Arguments Raise {A} e.

Definition bind {A B} (m : result A) (k : A -> result B) : result B :=
  match m with Ok a => k a | Raise e => Raise e end.
Notation "x <- m ;; k" := (bind m (fun x => k)) (at level 61, m at next level, right associativity).

(** A filesystem tree; a directory lists its entries in [iterdir] order. *)
Inductive node : Type :=
| File (contents : string)
| Dir (entries : list (string * node)).

Definition path := list string.

Definition lookup_child (es : list (string * node)) (n : string) : option node :=
  pd_get String.eqb n es.

Fixpoint lookup (nd : node) (p : path) : option node :=
  match p with
  | [] => Some nd
  | s :: r =>
      match nd with
      | Dir es => match lookup_child es s with Some c => lookup c r | None => None end
      | File _ => None
      end
  end.

Definition is_dir (nd : node) : bool := match nd with Dir _ => true | File _ => false end.

(** What the operating system does with one [subprocess.run] call. *)
Inductive proc_result : Type :=
| Ran (returncode : Z) (stdout stderr : string)
| NotFound
| Failed (msg : string).

(** Answers of the machine to a command run in a working directory. *)
Definition procs := list string -> path -> proc_result.

(** Commands the script started, with their working directory. *)
Definition trace := list (list string * path).

(** [run(cmd)] *)
Definition run (P : procs) (cmd : list string) (cwd : path) : Z * string * string :=
  match P cmd cwd with
  | Ran code out err => (code, py_strip out, py_strip err)
  | NotFound => (127%Z, "", ("Command not found: " ++ hd "" cmd)%string)
  | Failed msg => (1%Z, "", msg)
  end.

(* ------------------------------------------------------------------ *)
(** ** Parsing of [npm ls --json] output *)

(** The value of a run of decimal digits. *)
Fixpoint digits_value (cs : list ascii) (acc : Z) : Z :=
  match cs with
  | [] => acc
  | c :: r => digits_value r (acc * 10 + Z.of_nat (nat_of_ascii c - 48))%Z
  end.

(** A number literal split at its exponent marker. *)
Fixpoint split_exp (cs : list ascii) : list ascii * list ascii :=
  match cs with
  | [] => ([], [])
  | c :: r =>
      if ascii_eqb c "e" || ascii_eqb c "E" then ([], r)
      else let (m, x) := split_exp r in (c :: m, x)
  end.

(** The number of digits after the decimal point. *)
Fixpoint frac_len (cs : list ascii) : nat :=
  match cs with
  | [] => 0
  | c :: r => if ascii_eqb c "." then length r else frac_len r
  end.

Definition exp_value (cs : list ascii) : Z :=
  match cs with
  | c :: r =>
      if ascii_eqb c "-" then (- digits_value r 0)%Z
      else if ascii_eqb c "+" then digits_value r 0
      else digits_value cs 0
  | [] => 0%Z
  end.

(** Whether the Python number a JSON number literal decodes to is zero.
    The literal denotes [m * 10^e]: an integer literal ([e = 0]) is zero
    when [m] is; a float literal is decoded with correct rounding, so it is
    [0.0] when [m = 0] or when [m * 10^e] is at most half the least
    subnormal double, [2^-1075] (a tie rounds to the even neighbour, 0.0).
    When [-e] exceeds the number of digits by 324 or more, [m * 10^e] is
    below [10^-324 < 2^-1075] without computing it. *)
Definition num_is_zero (lit : list ascii) : bool :=
  let body := match lit with
              | c :: r => if ascii_eqb c "-" then r else lit
              | [] => []
              end in
  let '(mant, ex) := split_exp body in
  let ds := filter is_digit mant in
  let m := digits_value ds 0 in
  let e := (exp_value ex - Z.of_nat (frac_len mant))%Z in
  if (m =? 0)%Z then true
  else if (0 <=? e)%Z then false
  else if (Z.of_nat (length ds) + 324 <=? - e)%Z then true
  else (m * 2 ^ 1075 <=? 10 ^ (- e))%Z.

(** Truthiness of a JSON value once decoded into Python objects. *)
Definition json_truthy (j : json) : bool :=
  match j with
  | JNull => false
  | JBool b => b
  | JNum lit =>
      if String.eqb lit "NaN" || String.eqb lit "Infinity" || String.eqb lit "-Infinity"
      then true else negb (num_is_zero (chars lit))
  | JStr s => str_truthy s
  | JArr l => match l with [] => false | _ => true end
  | JObj kvs => match kvs with [] => false | _ => true end
  end.

(** [d.get(k, default)] on a decoded object. *)
Definition obj_get (kvs : list (string * json)) (k : string) (default : json) : json :=
  match pd_get String.eqb k kvs with Some v => v | None => default end.

(** [{name: info.get("version", "") for name, info in deps.items()}] *)
Fixpoint versions_of (items : list (string * json)) : result (list (string * json)) :=
  match items with
  | [] => Ok []
  | (name, info) :: r =>
      match info with
      | JObj ikvs =>
          rest <- versions_of r ;;
          Ok ((name, obj_get ikvs "version" (JStr "")) :: rest)
      | _ => Raise AttributeError
      end
  end.

(** Lines 53-64 of [get_global_npm_list], repeated verbatim as lines
    114-125 of [get_local_npm_list]: from [(code, out)] to the mapping. *)
Definition npm_ls_deps (code : Z) (out : string) : result (list (string * json)) :=
  if negb (Z.eqb code 0) && negb (str_truthy out) then Ok []
  else
    let data :=
      if str_truthy out then
        match json_loads out with
        | Some d => Ok (Some d)
        | None =>
            (* except json.JSONDecodeError *)
            match find_char "{" (chars out) with
            | Some json_start =>
                match json_loads (str (skipn json_start (chars out))) with
                | Some d => Ok (Some d)
                | None => Raise JSONDecodeError
                end
            | None => Ok None  (* return {} *)
            end
        end
      else Ok (Some (JObj [])) in
    d <- data ;;
    match d with
    | None => Ok []
    | Some (JObj kvs) =>
        let deps := obj_get kvs "dependencies" (JObj []) in
        let deps := if json_truthy deps then deps else JObj [] in
        match deps with
        | JObj items => versions_of items
        | _ => Raise AttributeError
        end
    | Some _ => Raise AttributeError
    end.

Definition global_ls_cmd : list string := ["npm"; "-g"; "ls"; "--depth=0"; "--json"].
Definition local_ls_cmd : list string := ["npm"; "ls"; "--depth=0"; "--json"].

(** [get_global_npm_list()], run from the working directory [cwd]. *)
Definition get_global_npm_list (P : procs) (cwd : path)
  : result (list (string * json)) * trace :=
  let '(code, out, _) := run P global_ls_cmd cwd in
  (npm_ls_deps code out, [(global_ls_cmd, cwd)]).


(* ------------------------------------------------------------------ *)
(** ** Local enumeration: [get_local_npm_list] *)

(** Equality of dict keys taken from a manifest's [name] field.  Strings
    compare as strings; other scalars compare by their JSON form (Python
    would also identify [1], [1.0] and [true]). *)
Definition json_key_eqb (a b : json) : bool :=
  match a, b with
  | JStr x, JStr y => String.eqb x y
  | JNum x, JNum y => String.eqb x y
  | JBool x, JBool y => Bool.eqb x y
  | JNull, JNull => true
  | _, _ => false
  end.

Definition hashable (j : json) : bool :=
  match j with JArr _ | JObj _ => false | _ => true end.

(** The body of each [try] block (lines 91-98 and 102-109): load the
    manifest, take [meta.get("name", dirname)] and [meta.get("version", "")]
    and store them; every exception is swallowed by [except Exception: pass]. *)
Definition read_manifest (deps : list (json * json)) (contents : string) (dirname : string)
  : list (json * json) :=
  match json_loads contents with
  | Some (JObj meta) =>
      let name := obj_get meta "name" (JStr dirname) in
      let version := obj_get meta "version" (JStr "") in
      if hashable name then pd_set json_key_eqb name version deps else deps
  | _ => deps
  end.

(** [pkg_json = d / "package.json"; if pkg_json.is_file(): ...] *)
Definition manifest_of (nd : node) : option string :=
  match lookup nd ["package.json"] with Some (File c) => Some c | _ => None end.

(** One iteration of [for pkgdir in node_modules.iterdir()]. *)
Definition scan_entry (deps : list (json * json)) (entry : string * node)
  : list (json * json) :=
  let '(name, nd) := entry in
  if py_startswith name "." then deps
  else if is_dir nd && py_startswith name "@" then
    match nd with
    | Dir subs =>
        fold_left (fun d sub =>
          match manifest_of (snd sub) with
          | Some c => read_manifest d c (fst sub)
          | None => d
          end) subs deps
    | File _ => deps
    end
  else
    match manifest_of nd with
    | Some c => read_manifest deps c name
    | None => deps
    end.

Definition scan_node_modules (ents : list (string * node)) : list (json * json) :=
  fold_left scan_entry ents [].

(** The [npm ls] fallback of lines 113-125; its keys are strings. *)
Definition local_fallback (P : procs) (cwd : path) : result (list (json * json)) * trace :=
  let '(code, out, _) := run P local_ls_cmd cwd in
  (match npm_ls_deps code out with
   | Ok l => Ok (map (fun kv => (JStr (fst kv), snd kv)) l)
   | Raise e => Raise e
   end, [(local_ls_cmd, cwd)]).

(** [get_local_npm_list(project_dir)] on the tree [fs], the process being in
    the working directory [cwd]. *)
Definition get_local_npm_list (P : procs) (fs : node) (cwd proj : path)
  : result (list (json * json)) * trace :=
  match lookup fs (proj ++ ["node_modules"]) with
  | Some (Dir ents) =>
      let deps := scan_node_modules ents in
      match deps with
      | _ :: _ => (Ok deps, [])
      | [] => local_fallback P cwd
      end
  | _ => local_fallback P cwd
  end.

(* ------------------------------------------------------------------ *)
(** ** Project discovery: [discover_package_json_roots] *)

(** [root.rglob("package.json")]: every entry named [package.json] at any
    depth below [base], directories visited depth first in listing order. *)
Fixpoint rglob_pkg (base : path) (nd : node) : list path :=
  match nd with
  | File _ => []
  | Dir es =>
      (match lookup_child es "package.json" with
       | Some _ => [base ++ ["package.json"]]
       | None => []
       end)
      ++ (fix go (es : list (string * node)) : list path :=
            match es with
            | [] => []
            | (n, sub) :: r =>
                (match sub with Dir _ => rglob_pkg (base ++ [n]) sub | File _ => [] end)
                ++ go r
            end) es
  end.

Definition parent (p : path) : path := removelast p.

(** Roots are given as absolute, already resolved paths. *)
Definition discover_package_json_roots (fs : node) (roots : list path) : list path :=
  flat_map (fun root =>
    match lookup fs root with
    | None => []
    | Some nd =>
        flat_map (fun p =>
          if existsb (String.eqb "node_modules") p then [] else [parent p])
          (rglob_pkg root nd)
    end) roots.

(** A file tree as the operating system has one: the entries of each
    directory have distinct names. *)
Fixpoint names_nodup (l : list string) : bool :=
  match l with
  | [] => true
  | x :: r => negb (existsb (String.eqb x) r) && names_nodup r
  end.

Fixpoint wfb (nd : node) : bool :=
  match nd with
  | File _ => true
  | Dir es =>
      names_nodup (map fst es)
      && (fix go (es : list (string * node)) : bool :=
            match es with
            | [] => true
            | (_, sub) :: r => wfb sub && go r
            end) es
  end.

(* ------------------------------------------------------------------ *)
(** ** Matching: [compare] *)

(** A row of the impacted list: [{"package_name": ..., "version": ...}]. *)
Record entry : Type := mkEntry {
  e_package_name : string;
  e_version : string
}.

(** A finding; [installed_version] has the type of the installed mapping's
    values ([str] in the annotations of [compare]). *)
Record finding (V : Type) : Type := mkFinding {
  package_name : string;
  installed_version : V;
  impacted_version_from_csv : string;
  location : string
}.
Arguments mkFinding {V} _ _ _ _.
Arguments package_name {V} _.
Arguments installed_version {V} _.
Arguments impacted_version_from_csv {V} _.
Arguments location {V} _.

(** [compare(impacted, installed, location)] *)
Definition compare {V : Type} (impacted : list entry) (installed : list (string * V))
  (location : string) : list (finding V) :=
  let impacted_set := map e_package_name impacted in
  fold_left (fun findings nv =>
    let '(name, ver) := nv in
    if existsb (String.eqb name) impacted_set then
      let expected :=
        match map e_version (filter (fun i => String.eqb (e_package_name i) name) impacted) with
        | x :: _ => x
        | [] => ""
        end in
      findings ++ [mkFinding name ver expected location]
    else findings) installed [].

(* ------------------------------------------------------------------ *)
(** ** The [csv] module, excel dialect

    Writer ([csv.writer] with [QUOTE_MINIMAL], [lineterminator="\r\n"]):
    a field is quoted when it holds a comma, a quote, CR or LF, and a quote
    inside a quoted field is doubled; a row made of a single empty field is
    written as two quotes. *)

Definition CR : ascii := ascii_of_nat 13.
Definition LF : ascii := ascii_of_nat 10.
Definition is_nl (c : ascii) : bool := ascii_eqb c CR || ascii_eqb c LF.

Definition needs_quote (cs : list ascii) : bool :=
  existsb (fun c => ascii_eqb c "," || ascii_eqb c quote || is_nl c) cs.

Fixpoint double_quotes (cs : list ascii) : list ascii :=
  match cs with
  | [] => []
  | c :: r => if ascii_eqb c quote then quote :: quote :: double_quotes r
              else c :: double_quotes r
  end.

Definition quote_field (s : string) : list ascii :=
  let cs := chars s in
  if needs_quote cs then quote :: double_quotes cs ++ [quote] else cs.

Fixpoint join_fields (fs : list (list ascii)) : list ascii :=
  match fs with
  | [] => []
  | [x] => x
  | x :: r => x ++ ","%char :: join_fields r
  end.

(** [writer.writerow(fields)] *)
Definition csv_row (fields : list string) : list ascii :=
  (match fields with
   | [EmptyString] => [quote; quote]
   | _ => join_fields (map quote_field fields)
   end) ++ [CR; LF].

(** Reader ([csv.reader] on a file opened with [newline=""]).  The file is
    read line by line (a line ends after LF, after CR LF, or after a lone
    CR) and the parser sees each character of a line and then an
    end-of-line event. *)
Inductive tok : Type := Chr (c : ascii) | EOL.

Definition tok_char (c : ascii) (next : option ascii) : list tok :=
  if ascii_eqb c LF then [Chr c; EOL]
  else if ascii_eqb c CR then
    match next with
    | Some n => if ascii_eqb n LF then [Chr c] else [Chr c; EOL]
    | None => [Chr c; EOL]
    end
  else [Chr c].

Fixpoint toks_aux (cs : list ascii) : list tok :=
  match cs with
  | [] => []
  | c :: r => tok_char c (hd_error r) ++ toks_aux r
  end.

Definition line_tokens (cs : list ascii) : list tok :=
  toks_aux cs ++
  match last cs LF with
  | c => if is_nl c then [] else [EOL]
  end.

(** States of [_csv.c]'s [parse_process_char] (the escape states are
    unreachable: the excel dialect has no escape character). *)
Inductive rstate : Type :=
| StartRecord | StartField | InField | InQuotedField | QuoteInQuotedField | EatCrnl.

Record reader : Type := mkReader {
  st : rstate;
  field : list ascii;        (* current field, reversed *)
  fields : list string
}.

Definition save_field (r : reader) (s : rstate) : reader :=
  mkReader s [] (fields r ++ [str (rev (field r))]).

(** [parse_add_char], refusing a field longer than [field_limit]. *)
Definition add_char (lim : option nat) (r : reader) (c : ascii) (s : rstate) : option reader :=
  match lim with
  | Some n => if n <=? length (field r) then None else Some (mkReader s (c :: field r) (fields r))
  | None => Some (mkReader s (c :: field r) (fields r))
  end.

Definition set_state (r : reader) (s : rstate) : reader := mkReader s (field r) (fields r).

Definition start_field (lim : option nat) (r : reader) (t : tok) : option reader :=
  match t with
  | EOL => Some (save_field r StartRecord)
  | Chr c =>
      if is_nl c then Some (save_field r EatCrnl)
      else if ascii_eqb c quote then Some (set_state r InQuotedField)
      else if ascii_eqb c "," then Some (save_field r StartField)
      else add_char lim r c InField
  end.

(** [parse_process_char]; [None] is a [csv.Error]. *)
Definition step (lim : option nat) (r : reader) (t : tok) : option reader :=
  match st r with
  | StartRecord =>
      match t with
      | EOL => Some r
      | Chr c => if is_nl c then Some (set_state r EatCrnl) else start_field lim r t
      end
  | StartField => start_field lim r t
  | InField =>
      match t with
      | EOL => Some (save_field r StartRecord)
      | Chr c =>
          if is_nl c then Some (save_field r EatCrnl)
          else if ascii_eqb c "," then Some (save_field r StartField)
          else add_char lim r c InField
      end
  | InQuotedField =>
      match t with
      | EOL => Some r
      | Chr c =>
          if ascii_eqb c quote then Some (set_state r QuoteInQuotedField)
          else add_char lim r c InQuotedField
      end
  | QuoteInQuotedField =>
      match t with
      | EOL => Some (save_field r StartRecord)
      | Chr c =>
          if ascii_eqb c quote then add_char lim r c InQuotedField
          else if ascii_eqb c "," then Some (save_field r StartField)
          else if is_nl c then Some (save_field r EatCrnl)
          else add_char lim r c InField   (* strict is off *)
      end
  | EatCrnl =>
      match t with
      | EOL => Some (set_state r StartRecord)
      | Chr c => if is_nl c then Some r else None
      end
  end.

Definition reader0 : reader := mkReader StartRecord [] [].

Definition is_in_quoted (s : rstate) : bool :=
  match s with InQuotedField => true | _ => false end.
Definition is_start_record (s : rstate) : bool :=
  match s with StartRecord => true | _ => false end.

(** [Reader_iternext] over the whole input: a record is returned each time
    a line leaves the parser in [StartRecord]; at end of input a pending
    field is saved when it is non-empty or quoted. *)
Fixpoint read_toks (lim : option nat) (ts : list tok) (r : reader) (acc : list (list string))
  : option (list (list string)) :=
  match ts with
  | [] =>
      match field r with
      | [] => if is_in_quoted (st r) then Some (acc ++ [fields (save_field r StartRecord)]) else Some acc
      | _ :: _ => Some (acc ++ [fields (save_field r StartRecord)])
      end
  | t :: ts' =>
      match step lim r t with
      | None => None
      | Some r' =>
          match t with
          | EOL => if is_start_record (st r') then read_toks lim ts' reader0 (acc ++ [fields r'])
                   else read_toks lim ts' r' acc
          | Chr _ => read_toks lim ts' r' acc
          end
      end
  end.

Definition csv_read (lim : option nat) (text : string) : option (list (list string)) :=
  read_toks lim (line_tokens (chars text)) reader0 [].

(** [csv.field_size_limit()] *)
Definition field_limit : nat := 131072.


(** [csv.DictReader]: a row is a dict from header names to [str]; missing
    trailing fields get [restval=None], surplus fields are listed under the
    key [restkey=None]. *)
Inductive cval : Type := CStr (s : string) | CNone | CList (l : list string).

Definition okey_eqb (a b : option string) : bool :=
  match a, b with
  | Some x, Some y => String.eqb x y
  | None, None => true
  | _, _ => false
  end.

Definition dict_row (fieldnames row : list string) : list (option string * cval) :=
  let d := pd_of_pairs okey_eqb (combine (map Some fieldnames) (map CStr row)) in
  let lf := length fieldnames in
  let lr := length row in
  if lf <? lr then pd_set okey_eqb None (CList (skipn lf row)) d
  else if lr <? lf then
    fold_left (fun d key => pd_set okey_eqb (Some key) CNone d) (skipn lr fieldnames) d
  else d.

Definition is_empty_row (row : list string) : bool :=
  match row with [] => true | _ => false end.

(** [(reader.fieldnames, list(reader))] *)
Definition dict_reader (rows : list (list string))
  : option (list string) * list (list (option string * cval)) :=
  match rows with
  | [] => (None, [])
  | header :: rest =>
      (Some header, map (dict_row header) (filter (fun r => negb (is_empty_row r)) rest))
  end.

(* ------------------------------------------------------------------ *)
(** ** Loading the impacted list: [load_impacted_packages] *)

(** [a or b] on [str]-or-[None] values. *)
Definition or_else (a : option string) (b : string) : string :=
  match a with Some h => if str_truthy h then h else b | None => b end.

(** [row.get(name_key, "").strip()] *)
Definition get_strip (row : list (option string * cval)) (k : string) : result string :=
  match pd_get okey_eqb (Some k) row with
  | None => Ok (py_strip "")
  | Some (CStr s) => Ok (py_strip s)
  | Some CNone => Raise AttributeError
  | Some (CList _) => Raise AttributeError
  end.

(** [(row.get(version_key, "") or "").strip()] *)
Definition get_or_strip (row : list (option string * cval)) (k : string) : result string :=
  match pd_get okey_eqb (Some k) row with
  | None => Ok (py_strip "")
  | Some (CStr s) => Ok (py_strip (if str_truthy s then s else ""))
  | Some CNone => Ok (py_strip "")
  | Some (CList l) => match l with [] => Ok (py_strip "") | _ => Raise AttributeError end
  end.

(** [load_impacted_packages(csv_path)] on the text of the file. *)
Definition load_impacted_packages (text : string) : result (list entry) :=
  match csv_read (Some field_limit) text with
  | None => Raise CsvError
  | Some rows =>
      let '(fieldnames, drows) := dict_reader rows in
      let headers := pd_of_pairs String.eqb
                       (map (fun h => (py_lower h, h)) (match fieldnames with Some f => f | None => [] end)) in
      let name_key := or_else (pd_get String.eqb "package_name" headers)
                        (or_else (pd_get String.eqb "name" headers) "package_name") in
      let version_key := or_else (pd_get String.eqb "version" headers) "version" in
      fold_left (fun acc row =>
        impacted <- acc ;;
        pkg_name <- get_strip row name_key ;;
        if negb (str_truthy pkg_name) then Ok impacted
        else
          version <- get_or_strip row version_key ;;
          Ok (impacted ++ [mkEntry pkg_name version])) drows (Ok [])
  end.


(* ------------------------------------------------------------------ *)
(** ** The report: [write_findings_csv] *)

Definition FINDINGS_DIR : path := ["Library"; "Application Support"; "Security"; "intel"].
Definition FINDINGS_CSV : path := FINDINGS_DIR ++ ["npm_findings.csv"].

Definition obind {A B} (m : option A) (k : A -> option B) : option B :=
  match m with Some a => k a | None => None end.

(** [os.makedirs(p, exist_ok=True)]; [None] is an [OSError] (a component
    is a file).  Permission, read-only-filesystem and other operating
    system errors are not modelled. *)
Fixpoint makedirs (nd : node) (p : path) : option node :=
  match nd with
  | File _ => None
  | Dir es =>
      match p with
      | [] => Some nd
      | s :: r =>
          match lookup_child es s with
          | Some c => obind (makedirs c r) (fun c' => Some (Dir (pd_set String.eqb s c' es)))
          | None => obind (makedirs (Dir []) r) (fun c' => Some (Dir (es ++ [(s, c')])))
          end
      end
  end.

(** [open(p, "w")] followed by writing [c] and closing: the parent must be a
    directory and [p] must not be one.  Permission, space and I/O errors
    are not modelled. *)
Fixpoint set_file (nd : node) (p : path) (c : string) : option node :=
  match nd with
  | File _ => None
  | Dir es =>
      match p with
      | [] => None
      | [s] =>
          match lookup_child es s with
          | Some (Dir _) => None
          | Some (File _) => Some (Dir (pd_set String.eqb s (File c) es))
          | None => Some (Dir (es ++ [(s, File c)]))
          end
      | s :: r =>
          match lookup_child es s with
          | Some ch => obind (set_file ch r c) (fun ch' => Some (Dir (pd_set String.eqb s ch' es)))
          | None => None
          end
      end
  end.

Definition report_fieldnames : list string :=
  ["package_name"; "installed_version"; "impacted_version_from_csv"; "location"].

(** [DictWriter.writerow(row)]: the values in [fieldnames] order, each
    turned into a [str] by [cell]. *)
Definition finding_row {V} (cell : V -> string) (f : finding V) : list string :=
  [package_name f; cell (installed_version f); impacted_version_from_csv f; location f].

(** [write_findings_csv(findings)]: the text written through the open file
    is the header followed by one row per finding; [None] is an [OSError]. *)
Definition write_findings_csv {V} (cell : V -> string) (fs : node) (findings : list (finding V))
  : option node :=
  obind (makedirs fs FINDINGS_DIR) (fun fs1 =>
    let text := fold_left (fun buf f => buf ++ csv_row (finding_row cell f))
                  findings (csv_row report_fieldnames) in
    set_file fs1 FINDINGS_CSV (str text)).

(* ------------------------------------------------------------------ *)
(** ** The entry point: [main] *)

(** [npm_available()] *)
Definition npm_available (P : procs) (cwd : path) : bool :=
  let '(code, out, _) := run P ["npm"; "-v"] cwd in
  Z.eqb code 0 && str_truthy (py_strip out).

(** [str(value)] as the csv writer applies it to a decoded JSON value
    ([None] is written as an empty field).  Numbers keep their JSON literal
    and containers get a plain rendering. *)
Fixpoint py_str_json (j : json) : string :=
  match j with
  | JNull => "None"
  | JBool b => if b then "True" else "False"
  | JNum lit => lit
  | JStr s => s
  | JArr l => ("[" ++ String.concat ", " (map py_str_json l) ++ "]")%string
  | JObj kvs =>
      ("{" ++ String.concat ", " (map (fun kv => fst kv ++ ": " ++ py_str_json (snd kv)) kvs)
       ++ "}")%string
  end.

Definition csv_cell (j : json) : string :=
  match j with JNull => "" | _ => py_str_json j end.

(** [str(proj)] *)
Definition path_str (p : path) : string := ("/" ++ String.concat "/" p)%string.

(** The [str] keys of an installed mapping: a key of another type never
    equals a package name of the impacted list. *)
Fixpoint str_keys (l : list (json * json)) : list (string * json) :=
  match l with
  | [] => []
  | (JStr k, v) :: r => (k, v) :: str_keys r
  | _ :: r => str_keys r
  end.

Record args : Type := mkArgs {
  csv_arg : path;          (* --csv, as an absolute path *)
  roots_arg : list path    (* --roots, as absolute resolved paths *)
}.

(** How the process ends: [sys.exit(code)] / falling off [main], or an
    uncaught exception (Python then exits with status 1). *)
Inductive exit : Type :=
| Exit (code : Z)
| Uncaught (e : exn).

Definition exit_status (x : exit) : Z :=
  match x with Exit c => c | Uncaught _ => 1%Z end.

Record outcome : Type := mkOutcome {
  ending : exit;
  final_fs : node;
  commands : trace
}.

(** The loop over the discovered projects. *)
Fixpoint scan_projects (P : procs) (fs : node) (impacted : list entry) (projects : list path)
  (findings : list (finding json)) (tr : trace)
  : result (list (finding json)) * trace :=
  match projects with
  | [] => (Ok findings, tr)
  | proj :: rest =>
      (* os.chdir(proj) *)
      let '(local_installed, tr1) := get_local_npm_list P fs proj proj in
      match local_installed with
      | Raise e => (Raise e, tr ++ tr1)
      | Ok li =>
          scan_projects P fs impacted rest
            (findings ++ compare impacted (str_keys li) ("local:" ++ path_str proj)%string)
            (tr ++ tr1)
      end
  end.

(** [main()], started in the working directory [cwd] on the tree [fs].
    The [print] calls (lines 164, 169, 174 and 192-199) are not modelled,
    nor the exceptions they may raise. *)
Definition main (P : procs) (fs : node) (cwd : path) (a : args) : outcome :=
  match lookup fs (csv_arg a) with
  | Some (File text) =>
      match load_impacted_packages text with
      | Raise e => mkOutcome (Uncaught e) fs []
      | Ok [] => mkOutcome (Exit 1) fs []
      | Ok impacted =>
          let tr0 := [(["npm"; "-v"], cwd)] in
          if negb (npm_available P cwd) then
            match write_findings_csv csv_cell fs [] with
            | Some fs' => mkOutcome (Exit 0) fs' tr0
            | None => mkOutcome (Uncaught OSError) fs tr0
            end
          else
            let '(global_installed, tr1) := get_global_npm_list P cwd in
            match global_installed with
            | Raise e => mkOutcome (Uncaught e) fs (tr0 ++ tr1)
            | Ok gi =>
                let findings := compare impacted gi "global" in
                let projects :=
                  match roots_arg a with
                  | [] => []
                  | roots => discover_package_json_roots fs roots
                  end in
                let '(res, tr2) := scan_projects P fs impacted projects findings (tr0 ++ tr1) in
                match res with
                | Raise e => mkOutcome (Uncaught e) fs tr2
                | Ok findings' =>
                    match write_findings_csv csv_cell fs findings' with
                    | Some fs' => mkOutcome (Exit 0) fs' tr2
                    | None => mkOutcome (Uncaught OSError) fs tr2
                    end
                end
            end
      end
  | _ => mkOutcome (Exit 1) fs []
  end.

(* ------------------------------------------------------------------ *)
(** ** Spec-side definitions and test helpers *)

(** Spec, 4.4: "the first matching compromised entry's declared expected
    version (if multiple compromised rows share a name, the first loaded
    wins)"; no such entry gives the empty string. *)
Fixpoint first_loaded_version (name : string) (impacted : list entry) : string :=
  match impacted with
  | [] => ""
  | i :: r => if String.eqb (e_package_name i) name then e_version i
              else first_loaded_version name r
  end.

Fixpoint strs_eqb (a b : list string) : bool :=
  match a, b with
  | [], [] => true
  | x :: a', y :: b' => String.eqb x y && strs_eqb a' b'
  | _, _ => false
  end.

(** A machine whose commands answer as listed (any working directory);
    an unlisted command is not found. *)
Fixpoint answers (tbl : list (list string * proc_result)) : procs :=
  fun cmd cwd =>
    match tbl with
    | [] => NotFound
    | (c, r) :: rest => if strs_eqb c cmd then r else answers rest cmd cwd
    end.




(* ------------------------------------------------------------------ *)
(** ** Vocabulary for the further properties *)

Definition is_obj (j : json) : bool := match j with JObj _ => true | _ => false end.

(** [info.get("version", "")] on a dependency record that is an object. *)
Definition info_version (info : json) : json :=
  match info with JObj ikvs => obj_get ikvs "version" (JStr "") | _ => JNull end.

Definition ls_object_sample : string :=
  dq "{'dependencies': {'left-pad': {'version': '1.3.0'}, 'x': {}}}".

Definition ls_object_items : list (string * json) :=
  [("left-pad", JObj [("version", JStr "1.3.0")]); ("x", JObj [])].

Definition host_fs : node :=
  Dir [("etc", Dir [("hosts", File "127.0.0.1 localhost")]); ("Library", Dir [])].

(** The [try] block of a manifest read raises (and is passed over) when
    the manifest is not a JSON object or its [name] cannot be a dict key. *)
Definition manifest_unusable (contents dirname : string) : bool :=
  match json_loads contents with
  | Some (JObj meta) => negb (hashable (obj_get meta "name" (JStr dirname)))
  | _ => true
  end.

Definition broken_node_modules : list (string * node) :=
  [("broken", Dir [("package.json", File "{not json")]);
   ("README", File "notes");
   ("foo", Dir [("package.json", File (dq "{'name':'foo','version':'1.2.3'}"))])].

(* ================================================================== *)
(** * Concrete inputs and auxiliary definitions used below *)

Definition e2e_fs : node :=
  Dir [("data", Dir [("impacted.csv", File "package_name,version
evil-pkg,9.9.9
")])].

Definition e2e_procs : procs :=
  answers [(["npm"; "-v"], Ran 0 "10.2.0
" "");
           (global_ls_cmd, Ran 0 (dq "{'dependencies': {'evil-pkg': {'version': '9.9.9'},
 'safe-pkg': {'version': '1.0.0'}}}") "")].

Definition sample_finding : finding string :=
  mkFinding "evil-pkg" "9.9.9" "9.9.9" "global".

Definition truncated_ls_output : string :=
  dq "npm WARN config global `--global`, `--local` are deprecated
{'dependencies': {'left-pad': {'version': '1.3.0'}}".

Definition truncated_ls_procs : procs :=
  answers [(["npm"; "-v"], Ran 0 "10.2.0" "");
           (global_ls_cmd, Ran 1 truncated_ls_output "");
           (local_ls_cmd, Ran 1 truncated_ls_output "")].

Definition short_row_csv : string := "version,package_name
9.9.9
".

Definition impacted_fs : node :=
  Dir [("data", Dir [("impacted.csv", File "package_name,version
evil-pkg,9.9.9
")])].

Definition node_modules_of (proj : path) : path := proj ++ ["node_modules"].

Definition foo_project : node :=
  Dir [("proj", Dir [("package.json", File "{}");
                     ("node_modules", Dir [("foo", Dir [("package.json",
                        File (dq "{'name':'foo','version':'1.2.3'}"))])])])].

Definition scoped_node_modules : list (string * node) :=
  [("@scope", Dir [("bar", Dir [("package.json",
      File (dq "{'name':'@scope/bar','version':'2.0.0'}"))])])].

Definition not_dot (e : string * node) : bool := negb (py_startswith (fst e) ".").

Definition dotted_project : node :=
  Dir [("proj", Dir [("node_modules",
         Dir [(".cache", Dir [("package.json", File (dq "{'name':'hidden','version':'0.0.1'}"))]);
              ("foo", Dir [("package.json", File (dq "{'name':'foo','version':'1.2.3'}"))])])])].

Definition undotted_project : node :=
  Dir [("proj", Dir [("node_modules",
         Dir [("foo", Dir [("package.json", File (dq "{'name':'foo','version':'1.2.3'}"))])])])].

Definition rglob_sub (base : path) (e : string * node) : list path :=
  match snd e with
  | Dir _ => rglob_pkg (base ++ [fst e]) (snd e)
  | File _ => []
  end.

Definition keep_manifest (p : path) : list path :=
  if existsb (String.eqb "node_modules") p then [] else [parent p].

Definition overlap_fs : node :=
  Dir [("home", Dir [("u", Dir [("app", Dir [("package.json", File "{}")])])])].

Definition overlap_roots : list path := [["home"]; ["home"; "u"]].

(* ================================================================== *)
(** * Tests of the embedding on small inputs *)

Example json_loads_ex1 :
  json_loads (dq "{'dependencies': {'a': {'version': '1.0'}}, 'x': [1, -2.5e3, true, null]}")
  = Some (JObj [("dependencies", JObj [("a", JObj [("version", JStr "1.0")])]);
                ("x", JArr [JNum "1"; JNum "-2.5e3"; JBool true; JNull])]).
Proof. reflexivity. Qed.

Example json_loads_ex2 : json_loads "{" = None.
Proof. reflexivity. Qed.

Example json_loads_ex3 : json_loads (dq "{'a':1,}") = None.
Proof. reflexivity. Qed.

Example json_loads_ex4 : json_loads (dq " {'a':1, 'a':2} ") = Some (JObj [("a", JNum "2")]).
Proof. reflexivity. Qed.

Example num_is_zero_ex : map (fun l => num_is_zero (chars l))
  ["0"; "-0"; "0.000"; "0e7"; "1e-400"; "2e-324"; "2.4703282292062327e-324"; "3e-324";
   "5e-324"; "1"; "0.5"; "1e400"; "10e-1"]
  = [true; true; true; true; true; true; true; false; false; false; false; false; false].
Proof. vm_compute. reflexivity. Qed.

Example npm_ls_underflow : npm_ls_deps 0 (dq "{'dependencies': 1e-400}") = Ok [].
Proof. vm_compute. reflexivity. Qed.

Example get_global_ex1 :
  fst (get_global_npm_list
         (fun _ _ => Ran 0 (dq "npm WARN x
{'dependencies': {'evil-pkg': {'version': '9.9.9'}, 'safe-pkg': {'version': '1.0.0'}}}") "") [])
  = Ok [("evil-pkg", JStr "9.9.9"); ("safe-pkg", JStr "1.0.0")].
Proof. reflexivity. Qed.

Example csv_read_ex :
  csv_read (Some field_limit) (dq "a,'b,c'
'x''y',
") = Some [["a"; "b,c"]; [dq "x'y"; ""]].
Proof. reflexivity. Qed.

Example load_ex1 :
  load_impacted_packages "Name,Version
 evil-pkg , 9.9.9
,1.0
other,
" = Ok [mkEntry "evil-pkg" "9.9.9"; mkEntry "other" ""].
Proof. vm_compute. reflexivity. Qed.

Example main_e2e :
  let o := main e2e_procs e2e_fs [] (mkArgs ["data"; "impacted.csv"] []) in
  ending o = Exit 0 /\
  lookup (final_fs o) FINDINGS_CSV =
    Some (File (str (chars "package_name,installed_version,impacted_version_from_csv,location"
                     ++ [CR; LF] ++ chars "evil-pkg,9.9.9,9.9.9,global" ++ [CR; LF]))).
Proof. vm_compute. split; reflexivity. Qed.

(* ================================================================== *)
(** * Matching *)

Lemma existsb_names (n : string) (imp : list entry) :
  existsb (String.eqb n) (map e_package_name imp)
  = existsb (fun i => String.eqb (e_package_name i) n) imp.
Proof.
  induction imp as [|i r IH]; simpl; [reflexivity|].
  rewrite IH, String.eqb_sym. reflexivity.
Qed.

Lemma head_version_first_loaded (n : string) (imp : list entry) :
  match map e_version (filter (fun i => String.eqb (e_package_name i) n) imp) with
  | x :: _ => x
  | [] => ""
  end = first_loaded_version n imp.
Proof.
  induction imp as [|i r IH]; simpl; [reflexivity|].
  destruct (String.eqb (e_package_name i) n); simpl; [reflexivity | exact IH].
Qed.

Lemma compare_fold {V : Type} (imp : list entry) (inst : list (string * V)) loc acc :
  fold_left (fun findings nv =>
    let '(name, ver) := nv in
    if existsb (String.eqb name) (map e_package_name imp) then
      findings ++ [mkFinding name ver
        (match map e_version (filter (fun i => String.eqb (e_package_name i) name) imp) with
         | x :: _ => x | [] => "" end) loc]
    else findings) inst acc
  = acc ++ map (fun nv => mkFinding (fst nv) (snd nv) (first_loaded_version (fst nv) imp) loc)
             (filter (fun nv => existsb (fun i => String.eqb (e_package_name i) (fst nv)) imp) inst).
Proof.
  revert acc; induction inst as [|[n v] r IH]; intros acc; simpl.
  - rewrite app_nil_r; reflexivity.
  - rewrite IH, existsb_names, head_version_first_loaded.
    destruct (existsb (fun i => String.eqb (e_package_name i) n) imp); simpl.
    + rewrite <- app_assoc; reflexivity.
    + reflexivity.
Qed.

(** C1: [compare] emits, in the order of the installed mapping, one
    finding for each installed package whose name is exactly (as a string,
    so case-sensitively) the name of some impacted entry, carrying the
    installed version, the version of the first such entry in load order,
    and the location label; other installed names give no finding. *)
Theorem compare_exact_name_matches {V : Type} (impacted : list entry)
  (installed : list (string * V)) (loc : string) :
  compare impacted installed loc
  = map (fun nv => mkFinding (fst nv) (snd nv) (first_loaded_version (fst nv) impacted) loc)
      (filter (fun nv => existsb (fun i => String.eqb (e_package_name i) (fst nv)) impacted)
         installed).
Proof.
  unfold compare. rewrite (compare_fold impacted installed loc []). reflexivity.
Qed.

Example compare_case_sensitive :
  compare [mkEntry "left-pad" "1.3.0"] [("Left-Pad", "1.3.0")] "global" = [].
Proof. reflexivity. Qed.

(* ================================================================== *)
(** * The csv reader on the writer's output *)

Section CsvRoundTrip.





















End CsvRoundTrip.

(* ================================================================== *)
(** * The report file *)

Section Report.

Lemma pd_get_set_same {K V} (keqb : K -> K -> bool) (k : K) (v : V) d :
  keqb k k = true -> pd_get keqb k (pd_set keqb k v d) = Some v.
Proof.
  intros Hk. induction d as [|[k' v'] r IH]; simpl.
  - rewrite Hk. reflexivity.
  - destruct (keqb k k') eqn:E; simpl; rewrite ?E; [reflexivity | exact IH].
Qed.

Lemma pd_get_app_new {K V} (keqb : K -> K -> bool) (k : K) (v : V) d :
  keqb k k = true -> pd_get keqb k d = None -> pd_get keqb k (d ++ [(k, v)]) = Some v.
Proof.
  intros Hk. induction d as [|[k' v'] r IH]; simpl.
  - rewrite Hk. reflexivity.
  - destruct (keqb k k'); [discriminate | exact IH].
Qed.

Lemma set_file_deep es s s2 p c :
  set_file (Dir es) (s :: s2 :: p) c
  = match lookup_child es s with
    | Some ch => obind (set_file ch (s2 :: p) c) (fun ch' => Some (Dir (pd_set String.eqb s ch' es)))
    | None => None
    end.
Proof. reflexivity. Qed.

Lemma set_file_lookup (p : path) (nd nd' : node) (c : string) :
  set_file nd p c = Some nd' -> lookup nd' p = Some (File c).
Proof.
  revert nd nd'. induction p as [|s p IH]; intros nd nd' H.
  - destruct nd; discriminate.
  - destruct nd as [c0|es]; [discriminate|].
    destruct p as [|s2 p'].
    + simpl in H. destruct (lookup_child es s) as [[c1|es1]|] eqn:E; inversion H; subst.
      * simpl. unfold lookup_child. rewrite pd_get_set_same by apply String.eqb_refl. reflexivity.
      * simpl. unfold lookup_child. rewrite pd_get_app_new by (apply String.eqb_refl || exact E).
        reflexivity.
    + rewrite set_file_deep in H. destruct (lookup_child es s) as [ch|] eqn:E; [|discriminate].
      destruct (set_file ch (s2 :: p') c) as [ch'|] eqn:E2; [|simpl in H; discriminate].
      simpl in H. inversion H; subst.
      cbn [lookup]. unfold lookup_child. rewrite pd_get_set_same by apply String.eqb_refl.
      exact (IH _ _ E2).
Qed.

(** Whether [open(p, "w")] succeeds does not depend on what is written. *)
Lemma set_file_content_irrelevant (p : path) (nd : node) (c c' : string) :
  set_file nd p c = None <-> set_file nd p c' = None.
Proof.
  revert nd. induction p as [|s p IH]; intros nd.
  - destruct nd; simpl; split; reflexivity.
  - destruct nd as [c0|es]; [simpl; split; reflexivity|].
    destruct p as [|s2 p'].
    + simpl. destruct (lookup_child es s) as [[c1|es1]|]; split; intros; discriminate || reflexivity.
    + rewrite !set_file_deep. destruct (lookup_child es s) as [ch|]; [|split; reflexivity].
      specialize (IH ch).
      destruct (set_file ch (s2 :: p') c), (set_file ch (s2 :: p') c'); simpl;
        split; intros; try reflexivity; try discriminate; exfalso; intuition discriminate.
Qed.

Lemma fold_append {A} (g : A -> list ascii) (l : list A) (init : list ascii) :
  fold_left (fun buf x => buf ++ g x) l init = init ++ concat (map g l).
Proof.
  revert init. induction l as [|x l IH]; intros init; simpl.
  - rewrite app_nil_r. reflexivity.
  - rewrite IH, app_assoc. reflexivity.
Qed.

(** The text [write_findings_csv] leaves at the report path. *)
Lemma write_findings_csv_lookup {V} (cell : V -> string) fs findings fs' :
  write_findings_csv cell fs findings = Some fs' ->
  lookup fs' FINDINGS_CSV
  = Some (File (str (csv_row report_fieldnames
                     ++ concat (map (fun f => csv_row (finding_row cell f)) findings)))).
Proof.
  unfold write_findings_csv. destruct (makedirs fs FINDINGS_DIR) as [fs1|]; [|discriminate].
  cbn [obind]. rewrite fold_append. apply set_file_lookup.
Qed.

Lemma write_findings_csv_some {V} (cell : V -> string) fs findings findings2 fs' :
  write_findings_csv cell fs findings = Some fs' ->
  exists fs2, write_findings_csv cell fs findings2 = Some fs2.
Proof.
  unfold write_findings_csv. destruct (makedirs fs FINDINGS_DIR) as [fs1|]; [|discriminate].
  cbn [obind]. intros H.
  match goal with |- exists _, set_file fs1 FINDINGS_CSV ?c2 = _ =>
    destruct (set_file fs1 FINDINGS_CSV c2) as [fs2|] eqn:E end.
  - exists fs2. reflexivity.
  - exfalso. eapply set_file_content_irrelevant in E. rewrite E in H. discriminate.
Qed.

End Report.

(** C4: when [write_findings_csv] completes, the report file holds exactly
    the fixed four-column header row followed by one row per finding in
    order, whatever the file held before; with no findings it holds exactly
    the header row; and the write succeeds for every findings sequence as
    soon as it succeeds for one. *)
Theorem write_findings_csv_header_then_rows {V : Type} (cell : V -> string) (fs : node)
  (findings : list (finding V)) (fs' : node) :
  write_findings_csv cell fs findings = Some fs' ->
  lookup fs' FINDINGS_CSV
    = Some (File (str (csv_row ["package_name"; "installed_version";
                                "impacted_version_from_csv"; "location"]
                       ++ concat (map (fun f => csv_row (finding_row cell f)) findings))))
  /\ (findings = [] ->
      lookup fs' FINDINGS_CSV
      = Some (File (str (csv_row ["package_name"; "installed_version";
                                  "impacted_version_from_csv"; "location"]))))
  /\ (forall findings2, exists fs2, write_findings_csv cell fs findings2 = Some fs2).
Proof.
  intros H. split; [|split].
  - exact (write_findings_csv_lookup cell fs findings fs' H).
  - intros ->. rewrite (write_findings_csv_lookup cell fs [] fs' H). cbn [map concat].
    rewrite app_nil_r. reflexivity.
  - intros findings2. exact (write_findings_csv_some cell fs findings findings2 fs' H).
Qed.

Lemma write_findings_csv_header_then_rows_witness :
  write_findings_csv (fun s : string => s) (Dir []) [sample_finding]
    = Some (Dir [("Library", Dir [("Application Support", Dir [("Security", Dir [("intel",
              Dir [("npm_findings.csv", File (str (csv_row report_fieldnames
                                                  ++ csv_row (finding_row (fun s => s) sample_finding))))])])])])])
  /\ lookup (Dir [("Library", Dir [("Application Support", Dir [("Security", Dir [("intel",
              Dir [("npm_findings.csv", File (str (csv_row report_fieldnames
                                                  ++ csv_row (finding_row (fun s => s) sample_finding))))])])])])])
       FINDINGS_CSV
     = Some (File (str (csv_row ["package_name"; "installed_version";
                                 "impacted_version_from_csv"; "location"]
                        ++ concat (map (fun f => csv_row (finding_row (fun s : string => s) f))
                                     [sample_finding])))).
Proof.
  split; [vm_compute; reflexivity|].
  apply (write_findings_csv_header_then_rows (fun s : string => s) (Dir []) [sample_finding]).
  vm_compute. reflexivity.
Defined.

Section RoundTrip.







End RoundTrip.








(* ================================================================== *)
(** * Parsing [npm ls] output *)

(** When the output has no opening brace and is not JSON, the mapping is
    empty, as the spec says. *)
Lemma npm_ls_deps_no_brace (code : Z) (out : string) :
  str_truthy out = true -> json_loads out = None -> find_char "{" (chars out) = None ->
  npm_ls_deps code out = Ok [].
Proof.
  intros Ht Hl Hf. unfold npm_ls_deps. rewrite Ht, Hl, Hf.
  destruct (negb (Z.eqb code 0)); reflexivity.
Qed.

(** C2 (defect): the retry [json.loads(out[json_start:])] sits inside the
    [except] handler without a [try] of its own.  On [npm ls] output whose
    text from the first brace on is still not JSON (here: a warning line and
    a truncated payload) both enumerators raise [JSONDecodeError] instead of
    returning an empty mapping. *)
Theorem npm_ls_retry_raises :
  json_loads truncated_ls_output = None
  /\ find_char "{" (chars truncated_ls_output) <> None
  /\ fst (get_global_npm_list truncated_ls_procs []) = Raise JSONDecodeError
  /\ fst (get_local_npm_list truncated_ls_procs (Dir [("proj", Dir [])]) ["proj"] ["proj"])
     = Raise JSONDecodeError.
Proof. vm_compute. repeat split; discriminate || reflexivity. Qed.

(* ================================================================== *)
(** * Loading the impacted list *)

(** C3 (defect): a data row shorter than the header leaves the name column
    to [DictReader]'s [restval], [None]; [row.get(name_key, "").strip()]
    then raises [AttributeError], where the version column is guarded by
    [or ""].  The loader aborts instead of skipping the row. *)
Theorem load_short_row_raises :
  csv_read (Some field_limit) short_row_csv = Some [["version"; "package_name"]; ["9.9.9"]]
  /\ load_impacted_packages short_row_csv = Raise AttributeError.
Proof. split; vm_compute; reflexivity. Qed.

(* ================================================================== *)
(** * Exit status of [main] *)

(** C9 (defect, the one of C2): with a present, non-empty impacted list and
    npm installed, output of [npm -g ls] whose payload is truncated makes
    [main] end on an uncaught [JSONDecodeError], i.e. with status 1, and no
    report is written. *)
Theorem main_truncated_ls_exit_1 :
  load_impacted_packages "package_name,version
evil-pkg,9.9.9
" = Ok [mkEntry "evil-pkg" "9.9.9"]
  /\ npm_available truncated_ls_procs [] = true
  /\ ending (main truncated_ls_procs impacted_fs [] (mkArgs ["data"; "impacted.csv"] []))
     = Uncaught JSONDecodeError
  /\ exit_status (ending (main truncated_ls_procs impacted_fs [] (mkArgs ["data"; "impacted.csv"] [])))
     = 1%Z
  /\ lookup (final_fs (main truncated_ls_procs impacted_fs [] (mkArgs ["data"; "impacted.csv"] [])))
       FINDINGS_CSV = None.
Proof. vm_compute. repeat split. Qed.

(* ================================================================== *)
(** * Local enumeration *)

(** C6: when [node_modules] is a directory whose manifests yield at least
    one package, [get_local_npm_list] returns exactly that mapping and
    starts no process; [npm ls] is started (once, in the working
    directory) only when [node_modules] is not a directory or its manifests
    yield nothing. *)
Theorem get_local_manifest_first (P : procs) (fs : node) (cwd proj : path) :
  (forall ents, lookup fs (node_modules_of proj) = Some (Dir ents) ->
                scan_node_modules ents <> [] ->
                get_local_npm_list P fs cwd proj = (Ok (scan_node_modules ents), []))
  /\ (snd (get_local_npm_list P fs cwd proj) <> [] ->
      snd (get_local_npm_list P fs cwd proj) = [(local_ls_cmd, cwd)]
      /\ forall ents, lookup fs (node_modules_of proj) = Some (Dir ents) ->
                      scan_node_modules ents = []).
Proof.
  unfold get_local_npm_list, node_modules_of, local_fallback.
  split.
  - intros ents Hl Hne. rewrite Hl.
    destruct (scan_node_modules ents) as [|x l]; [contradiction | reflexivity].
  - destruct (run P local_ls_cmd cwd) as [[code out] err].
    destruct (lookup fs (proj ++ ["node_modules"])) as [[c|ents]|] eqn:Hl.
    + intros _. split; [reflexivity | intros ents' H; discriminate].
    + destruct (scan_node_modules ents) as [|x l] eqn:Hs.
      * intros _. split; [reflexivity|]. intros ents' H. inversion H; subst. exact Hs.
      * simpl. intros H; contradiction.
    + intros _. split; [reflexivity | intros ents' H; discriminate].
Qed.

Lemma get_local_manifest_first_witness :
  get_local_npm_list (answers []) foo_project ["proj"] ["proj"]
  = (Ok [(JStr "foo", JStr "1.2.3")], []).
Proof.
  apply (proj1 (get_local_manifest_first (answers []) foo_project ["proj"] ["proj"])
           [("foo", Dir [("package.json", File (dq "{'name':'foo','version':'1.2.3'}"))])]).
  - vm_compute. reflexivity.
  - vm_compute. discriminate.
Defined.

Lemma starts_at_not_dot (s : string) :
  py_startswith s "@" = true -> py_startswith s "." = false.
Proof.
  unfold py_startswith. destruct s as [|a s]; [discriminate|].
  cbn [String.prefix]. destruct (Ascii.ascii_dec "@"%char a) as [<-|];
    [reflexivity | intros H; discriminate H].
Qed.

(** C7: an [@]-prefixed directory of [node_modules] is not read as a
    package: each of its entries is, through the entry's own
    [package.json], keyed by the manifest's [name] when it has one (the
    entry's name otherwise); a [package.json] of the scope directory itself
    is ignored. *)
Theorem scoped_entries_expand (deps : list (json * json)) (s : string)
  (subs : list (string * node)) :
  py_startswith s "@" = true ->
  scan_entry deps (s, Dir subs)
    = fold_left (fun d sub =>
        match manifest_of (snd sub) with
        | Some c => read_manifest d c (fst sub)
        | None => d
        end) subs deps
  /\ (forall c, scan_entry deps (s, Dir (("package.json", File c) :: subs))
                = scan_entry deps (s, Dir subs))
  /\ (forall d c sub meta n v,
        json_loads c = Some (JObj meta) ->
        pd_get String.eqb "name" meta = Some (JStr n) ->
        pd_get String.eqb "version" meta = Some v ->
        read_manifest d c sub = pd_set json_key_eqb (JStr n) v d).
Proof.
  intros Hs. split; [|split].
  - unfold scan_entry. rewrite (starts_at_not_dot s Hs), Hs. reflexivity.
  - intros c. unfold scan_entry. rewrite (starts_at_not_dot s Hs), Hs. reflexivity.
  - intros d c sub meta n v Hl Hn Hv. unfold read_manifest, obj_get.
    rewrite Hl, Hn, Hv. reflexivity.
Qed.

Lemma scoped_entries_expand_witness :
  scan_node_modules scoped_node_modules = [(JStr "@scope/bar", JStr "2.0.0")]
  /\ scan_entry [] ("@scope", Dir [("bar", Dir [("package.json",
        File (dq "{'name':'@scope/bar','version':'2.0.0'}"))])])
     = fold_left (fun d sub =>
         match manifest_of (snd sub) with
         | Some c => read_manifest d c (fst sub)
         | None => d
         end) [("bar", Dir [("package.json",
                  File (dq "{'name':'@scope/bar','version':'2.0.0'}"))])] [].
Proof.
  split; [vm_compute; reflexivity|].
  apply (scoped_entries_expand [] "@scope"). reflexivity.
Defined.

Lemma scan_skips_dot (ents : list (string * node)) acc :
  fold_left scan_entry ents acc = fold_left scan_entry (filter not_dot ents) acc.
Proof.
  revert acc. induction ents as [|[n nd] ents IH]; intros acc; [reflexivity|].
  unfold not_dot at 1. cbn [filter fst].
  destruct (py_startswith n ".") eqn:Hd; cbn [negb fold_left].
  - rewrite <- IH. unfold scan_entry at 2. rewrite Hd. reflexivity.
  - apply IH.
Qed.

(** C10: entries of [node_modules] whose name begins with a dot never
    contribute: removing them all (manifests included) does not change
    what [get_local_npm_list] returns or which processes it starts. *)
Theorem dot_entries_ignored (P : procs) (fs fs' : node) (cwd proj : path)
  (ents : list (string * node)) :
  lookup fs (node_modules_of proj) = Some (Dir ents) ->
  lookup fs' (node_modules_of proj) = Some (Dir (filter not_dot ents)) ->
  get_local_npm_list P fs cwd proj = get_local_npm_list P fs' cwd proj.
Proof.
  unfold get_local_npm_list, node_modules_of. intros H1 H2. rewrite H1, H2.
  unfold scan_node_modules. rewrite <- scan_skips_dot. reflexivity.
Qed.

Lemma dot_entries_ignored_witness :
  get_local_npm_list (answers []) dotted_project ["proj"] ["proj"]
  = get_local_npm_list (answers []) undotted_project ["proj"] ["proj"]
  /\ get_local_npm_list (answers []) dotted_project ["proj"] ["proj"]
     = (Ok [(JStr "foo", JStr "1.2.3")], []).
Proof.
  split; [|vm_compute; reflexivity].
  apply (dot_entries_ignored (answers []) dotted_project undotted_project ["proj"] ["proj"]
           [(".cache", Dir [("package.json", File (dq "{'name':'hidden','version':'0.0.1'}"))]);
            ("foo", Dir [("package.json", File (dq "{'name':'foo','version':'1.2.3'}"))])]);
    vm_compute; reflexivity.
Defined.

(* ================================================================== *)
(** * Project discovery *)

Section NodeInd.
Variable Pn : node -> Prop.
Hypothesis HF : forall c, Pn (File c).
Hypothesis HD : forall es, Forall (fun e => Pn (snd e)) es -> Pn (Dir es).

Fixpoint node_ind' (nd : node) : Pn nd :=
  match nd with
  | File c => HF c
  | Dir es =>
      HD es ((fix go (es : list (string * node)) : Forall (fun e => Pn (snd e)) es :=
                match es with
                | [] => Forall_nil _
                | (n, sub) :: r => @Forall_cons _ (fun e => Pn (snd e)) (n, sub) r
                                     (node_ind' sub) (go r)
                end) es)
  end.
End NodeInd.

Lemma rglob_dir (base : path) (es : list (string * node)) :
  rglob_pkg base (Dir es)
  = (match lookup_child es "package.json" with
     | Some _ => [base ++ ["package.json"]]
     | None => []
     end)
    ++ flat_map (fun e => match snd e with
                          | Dir _ => rglob_pkg (base ++ [fst e]) (snd e)
                          | File _ => []
                          end) es.
Proof.
  cbn [rglob_pkg]. f_equal.
  induction es as [|[n sub] r IH]; [reflexivity|].
  cbn [flat_map fst snd]. rewrite <- IH. reflexivity.
Qed.

Lemma wfb_dir (es : list (string * node)) :
  wfb (Dir es) = true <->
  names_nodup (map fst es) = true /\ (forall e, In e es -> wfb (snd e) = true).
Proof.
  cbn [wfb]. rewrite andb_true_iff. apply and_iff_compat_l.
  induction es as [|[n sub] r IH].
  - split; [intros _ e []| reflexivity].
  - rewrite andb_true_iff, IH. split.
    + intros [H1 H2] e [<-|He]; [exact H1 | exact (H2 e He)].
    + intros H. split; [apply (H (n, sub)); left; reflexivity|].
      intros e He. apply H. right. exact He.
Qed.

Lemma lookup_child_in (es : list (string * node)) n sub :
  lookup_child es n = Some sub -> In (n, sub) es.
Proof.
  unfold lookup_child. induction es as [|[n' sub'] r IH]; cbn [pd_get]; [discriminate|].
  destruct (String.eqb n n') eqn:E.
  - apply String.eqb_eq in E. subst. intros H. inversion H. left. reflexivity.
  - intros H. right. exact (IH H).
Qed.

Lemma in_lookup_child (es : list (string * node)) n sub :
  names_nodup (map fst es) = true -> In (n, sub) es -> lookup_child es n = Some sub.
Proof.
  unfold lookup_child. induction es as [|[n' sub'] r IH]; cbn [pd_get map fst names_nodup];
    [intros _ []|].
  rewrite andb_true_iff, negb_true_iff. intros [Hn Hr] [H|H].
  - inversion H; subst. rewrite String.eqb_refl. reflexivity.
  - destruct (String.eqb n n') eqn:E.
    + apply String.eqb_eq in E. subst.
      assert (existsb (String.eqb n') (map fst r) = true) as Hc.
      { apply existsb_exists. exists n'. split; [|apply String.eqb_refl].
        apply (in_map fst r (n', sub)). exact H. }
      rewrite Hc in Hn. discriminate.
    + exact (IH Hr H).
Qed.

Lemma lookup_app (nd : node) (a b : path) :
  lookup nd (a ++ b) = obind (lookup nd a) (fun m => lookup m b).
Proof.
  revert nd. induction a as [|s a IH]; intros nd; [reflexivity|].
  cbn [app lookup]. destruct nd as [c|es]; [reflexivity|].
  destruct (lookup_child es s); [apply IH | reflexivity].
Qed.

Lemma lookup_wfb (nd : node) (p : path) m :
  wfb nd = true -> lookup nd p = Some m -> wfb m = true.
Proof.
  revert nd. induction p as [|s p IH]; intros nd Hw Hl.
  - inversion Hl; subst. exact Hw.
  - destruct nd as [c|es]; [discriminate|]. cbn [lookup] in Hl.
    destruct (lookup_child es s) as [sub|] eqn:E; [|discriminate].
    apply (IH sub); [|exact Hl].
    apply (proj2 (proj1 (wfb_dir es) Hw) (s, sub)). exact (lookup_child_in es s sub E).
Qed.

Lemma rglob_spec (nd : node) :
  wfb nd = true ->
  forall base x, In x (rglob_pkg base nd)
    <-> exists q, x = base ++ q ++ ["package.json"] /\ lookup nd (q ++ ["package.json"]) <> None.
Proof.
  induction nd as [c|es IHes] using node_ind'.
  - intros _ base x. split; [intros []|].
    intros [q [_ Hl]]. destruct q; cbn in Hl; congruence.
  - intros Hw base x. destruct (proj1 (wfb_dir es) Hw) as [Hnd Hsub].
    rewrite rglob_dir, in_app_iff, in_flat_map. split.
    + intros [Hh|[[n sub] [He Hx]]].
      * destruct (lookup_child es "package.json") as [m|] eqn:E; [|destruct Hh].
        destruct Hh as [<-|[]]. exists []. cbn. rewrite E. split; [reflexivity | discriminate].
      * cbn [fst snd] in Hx. destruct sub as [c|es']; [destruct Hx|].
        rewrite Forall_forall in IHes.
        destruct (proj1 (IHes (n, Dir es') He (Hsub _ He) (base ++ [n]) x) Hx) as [q [Hq Hl]].
        exists (n :: q). split; [subst; rewrite <- app_assoc; reflexivity|].
        cbn [app lookup]. rewrite (in_lookup_child es n (Dir es') Hnd He). exact Hl.
    + intros [[|n q] [Hx Hl]].
      * left. cbn in Hl. destruct (lookup_child es "package.json"); [|congruence].
        left. symmetry. exact Hx.
      * right. cbn [app lookup] in Hl.
        destruct (lookup_child es n) as [sub|] eqn:E; [|congruence].
        pose proof (lookup_child_in es n sub E) as He.
        exists (n, sub). split; [exact He|]. cbn [fst snd].
        destruct sub as [c|es'].
        { destruct q; cbn in Hl; congruence. }
        rewrite Forall_forall in IHes.
        apply (proj2 (IHes (n, Dir es') He (Hsub _ He) (base ++ [n]) x)).
        exists q. split; [subst; rewrite <- app_assoc; reflexivity | exact Hl].
Qed.

Lemma rglob_sub_prefix (base : path) (e : string * node) x :
  wfb (snd e) = true -> In x (rglob_sub base e) ->
  exists q, x = base ++ fst e :: q ++ ["package.json"].
Proof.
  unfold rglob_sub. intros Hw Hx. destruct (snd e) as [c|es] eqn:E; [destruct Hx|].
  rewrite <- E in Hx, Hw. destruct (proj1 (rglob_spec _ Hw _ x) Hx) as [q [Hq _]].
  exists q. rewrite Hq, <- app_assoc. reflexivity.
Qed.

Lemma rglob_subs_nodup (base : path) (es : list (string * node)) :
  names_nodup (map fst es) = true ->
  (forall e, In e es -> wfb (snd e) = true) ->
  (forall e, In e es -> NoDup (rglob_sub base e)) ->
  NoDup (flat_map (rglob_sub base) es).
Proof.
  induction es as [|e r IH]; intros Hn Hw Hd; [constructor|].
  cbn [flat_map]. cbn [map names_nodup] in Hn.
  apply andb_true_iff in Hn as [Hn1 Hn2]. apply negb_true_iff in Hn1.
  apply NoDup_app.
  - apply Hd. left. reflexivity.
  - apply IH; [exact Hn2 | intros e' H; apply Hw; right; exact H
              | intros e' H; apply Hd; right; exact H].
  - intros x Hx Hx'. apply in_flat_map in Hx' as [e' [He' Hx']].
    destruct (rglob_sub_prefix base e x (Hw e (or_introl eq_refl)) Hx) as [q Hq].
    destruct (rglob_sub_prefix base e' x (Hw e' (or_intror He')) Hx') as [q' Hq'].
    rewrite Hq in Hq'. apply app_inv_head in Hq'. inversion Hq' as [[Hfst Htl]].
    assert (existsb (String.eqb (fst e)) (map fst r) = true) as Hc.
    { apply existsb_exists. exists (fst e'). split; [apply in_map; exact He'|].
      rewrite Hfst. apply String.eqb_refl. }
    congruence.
Qed.

Lemma rglob_nodup (nd : node) :
  wfb nd = true -> forall base, NoDup (rglob_pkg base nd).
Proof.
  induction nd as [c|es IHes] using node_ind'; intros Hw base; [constructor|].
  destruct (proj1 (wfb_dir es) Hw) as [Hnd Hsub].
  rewrite rglob_dir. fold (rglob_sub base). apply NoDup_app.
  - destruct (lookup_child es "package.json"); repeat constructor. intros [].
  - apply rglob_subs_nodup; [exact Hnd | exact Hsub|].
    intros e He. unfold rglob_sub. destruct (snd e) as [c|es'] eqn:E; [constructor|].
    rewrite Forall_forall in IHes. rewrite <- E. apply (IHes e He). apply Hsub. exact He.
  - intros x Hx Hx'. destruct (lookup_child es "package.json"); [|destruct Hx].
    destruct Hx as [<-|[]]. apply in_flat_map in Hx' as [e [He Hx']].
    destruct (rglob_sub_prefix base e _ (Hsub e He) Hx') as [q Hq].
    apply app_inv_head in Hq. inversion Hq as [[Hn Hnil]].
    destruct q; discriminate.
Qed.

Lemma discover_one (fs : node) (r : path) :
  discover_package_json_roots fs [r]
  = match lookup fs r with
    | None => []
    | Some nd => flat_map keep_manifest (rglob_pkg r nd)
    end.
Proof.
  unfold discover_package_json_roots. cbn [flat_map]. rewrite app_nil_r. reflexivity.
Qed.

Lemma keep_manifest_nodup (l : list path) :
  NoDup l -> (forall p, In p l -> exists y, p = y ++ ["package.json"]) ->
  NoDup (flat_map keep_manifest l).
Proof.
  induction l as [|p r IH]; intros Hd Hs; [constructor|].
  apply NoDup_cons_iff in Hd as [Hp Hr]. cbn [flat_map]. apply NoDup_app.
  - unfold keep_manifest. destruct (existsb _ p); repeat constructor. intros [].
  - apply IH; [exact Hr | intros p' H; apply Hs; right; exact H].
  - intros x Hx Hx'. apply in_flat_map in Hx' as [p' [Hp' Hx']].
    unfold keep_manifest in Hx, Hx'.
    destruct (existsb _ p); [destruct Hx|]. destruct (existsb _ p'); [destruct Hx'|].
    destruct Hx as [<-|[]]. destruct Hx' as [Hx'|[]].
    destruct (Hs p (or_introl eq_refl)) as [y Hy].
    destruct (Hs p' (or_intror Hp')) as [y' Hy'].
    unfold parent in Hx'. rewrite Hy, Hy', !removelast_last in Hx'.
    apply Hp. rewrite Hy, <- Hx', <- Hy'. exact Hp'.
Qed.

Lemma existsb_nm_false (p : path) :
  existsb (String.eqb "node_modules") p = false <-> ~ In "node_modules" p.
Proof.
  split.
  - intros H Hin. assert (existsb (String.eqb "node_modules") p = true) as Ht.
    { apply existsb_exists. exists "node_modules"%string. split; [exact Hin | apply String.eqb_refl]. }
    congruence.
  - intros Hn. destruct (existsb _ p) eqn:E; [|reflexivity].
    apply existsb_exists in E as [y [Hy Hyeq]]. apply String.eqb_eq in Hyeq. subst y.
    contradiction.
Qed.

Lemma discover_mem (fs : node) (roots : list path) :
  wfb fs = true ->
  forall p, In p (discover_package_json_roots fs roots)
    <-> exists r q, In r roots /\ p = r ++ q
                    /\ lookup fs (p ++ ["package.json"]) <> None
                    /\ ~ In "node_modules" p.
Proof.
  intros Hw p. unfold discover_package_json_roots. rewrite in_flat_map. split.
  - intros [r [Hr Hp]]. destruct (lookup fs r) as [nd|] eqn:Hl; [|destruct Hp].
    apply in_flat_map in Hp as [x [Hx Hp]].
    destruct (proj1 (rglob_spec nd (lookup_wfb fs r nd Hw Hl) r x) Hx) as [q [Hq Hlq]].
    unfold keep_manifest in Hp. destruct (existsb _ x) eqn:Hnm; [destruct Hp|].
    destruct Hp as [<-|[]]. exists r, q.
    unfold parent. rewrite Hq, app_assoc, removelast_last.
    split; [exact Hr|]. split; [reflexivity|]. split.
    + rewrite <- app_assoc, lookup_app, Hl. exact Hlq.
    + intros Hin. rewrite app_assoc in Hq. subst x.
      apply (proj1 (existsb_nm_false _) Hnm). apply in_or_app. left. exact Hin.
  - intros [r [q [Hr [Hp [Hlq Hnm]]]]]. exists r. split; [exact Hr|].
    subst p. rewrite <- app_assoc, lookup_app in Hlq.
    destruct (lookup fs r) as [nd|] eqn:Hl; [|contradiction]. cbn [obind] in Hlq.
    apply in_flat_map. exists (r ++ q ++ ["package.json"]). split.
    + apply (proj2 (rglob_spec nd (lookup_wfb fs r nd Hw Hl) r _)).
      exists q. split; [reflexivity | exact Hlq].
    + unfold keep_manifest. rewrite app_assoc.
      rewrite (proj2 (existsb_nm_false _)).
      * unfold parent. rewrite removelast_last. left. reflexivity.
      * intros Hin. apply in_app_or in Hin as [Hin|[Heq|[]]]; [exact (Hnm Hin) | discriminate].
Qed.

(** C8 (as stated, refuted): with the overlapping roots [/home] and
    [/home/u], the project [/home/u/app] is reported twice. *)
Lemma discover_overlap_duplicates :
  discover_package_json_roots overlap_fs overlap_roots
    = [["home"; "u"; "app"]; ["home"; "u"; "app"]]
  /\ ~ NoDup (discover_package_json_roots overlap_fs overlap_roots).
Proof.
  assert (E : discover_package_json_roots overlap_fs overlap_roots
              = [["home"; "u"; "app"]; ["home"; "u"; "app"]]) by (vm_compute; reflexivity).
  split; [exact E|]. rewrite E. intros H. inversion H as [|x l Hn _]. apply Hn. left. reflexivity.
Qed.

(** C8 (amended): in a file tree whose directories have distinct entry
    names, [discover_package_json_roots] concatenates, root by root in the
    order given, the parent directories of the [package.json] entries below
    each root; a root that does not exist contributes nothing; one root's
    contribution has no repetition; and a directory is listed exactly when
    it lies under a given root, holds a [package.json] and has no
    [node_modules] segment in its path.  Nothing is deduplicated across
    roots. *)
Theorem discover_roots_in_order (fs : node) (roots : list path) :
  wfb fs = true ->
  discover_package_json_roots fs roots
    = flat_map (fun r => discover_package_json_roots fs [r]) roots
  /\ (forall r, lookup fs r = None -> discover_package_json_roots fs [r] = [])
  /\ (forall r, NoDup (discover_package_json_roots fs [r]))
  /\ (forall p, In p (discover_package_json_roots fs roots)
        <-> exists r q, In r roots /\ p = r ++ q
                        /\ lookup fs (p ++ ["package.json"]) <> None
                        /\ ~ In "node_modules" p).
Proof.
  intros Hw. split; [|split; [|split]].
  - unfold discover_package_json_roots. induction roots as [|r rs IH]; [reflexivity|].
    cbn [flat_map]. rewrite IH, app_nil_r. reflexivity.
  - intros r Hl. rewrite discover_one, Hl. reflexivity.
  - intros r. rewrite discover_one. destruct (lookup fs r) as [nd|] eqn:Hl; [|constructor].
    pose proof (lookup_wfb fs r nd Hw Hl) as Hnd.
    apply keep_manifest_nodup; [apply rglob_nodup; exact Hnd|].
    intros p Hp. destruct (proj1 (rglob_spec nd Hnd r p) Hp) as [q [Hq _]].
    exists (r ++ q). rewrite Hq, app_assoc. reflexivity.
  - apply discover_mem. exact Hw.
Qed.

Lemma discover_roots_in_order_witness :
  wfb overlap_fs = true
  /\ discover_package_json_roots overlap_fs overlap_roots
     = flat_map (fun r => discover_package_json_roots overlap_fs [r]) overlap_roots.
Proof.
  split; [vm_compute; reflexivity|].
  apply (discover_roots_in_order overlap_fs overlap_roots). vm_compute. reflexivity.
Defined.

(* ================================================================== *)
(** * Further properties of the script *)

(** ** [str.strip] *)

Lemma chars_str (cs : list ascii) : chars (str cs) = cs.
Proof. unfold chars, str. apply list_ascii_of_string_of_list_ascii. Qed.

Lemma lstrip_suffix (cs : list ascii) : exists p, cs = p ++ lstrip_chars cs.
Proof.
  induction cs as [|c r [p Hp]]; [exists []; reflexivity|].
  cbn [lstrip_chars]. destruct (py_isspace c).
  - exists (c :: p). rewrite Hp at 1. reflexivity.
  - exists []. reflexivity.
Qed.

Lemma lstrip_head (cs : list ascii) :
  lstrip_chars cs = [] \/ exists c r, lstrip_chars cs = c :: r /\ py_isspace c = false.
Proof.
  induction cs as [|c r IH]; [left; reflexivity|].
  cbn [lstrip_chars]. destruct (py_isspace c) eqn:E; [exact IH|].
  right. exists c, r. split; [reflexivity | exact E].
Qed.

Lemma lstrip_nonspace (c : ascii) (r : list ascii) :
  py_isspace c = false -> lstrip_chars (c :: r) = c :: r.
Proof. intros H. cbn [lstrip_chars]. rewrite H. reflexivity. Qed.

Lemma lstrip_idem (cs : list ascii) : lstrip_chars (lstrip_chars cs) = lstrip_chars cs.
Proof.
  destruct (lstrip_head cs) as [->|[c [r [-> H]]]]; [reflexivity|].
  apply lstrip_nonspace. exact H.
Qed.

(** Stripping twice is stripping once. *)
Lemma py_strip_idem (s : string) : py_strip (py_strip s) = py_strip s.
Proof.
  unfold py_strip. rewrite chars_str. f_equal.
  set (A := lstrip_chars (chars s)).
  set (B := lstrip_chars (rev A)).
  assert (HB : lstrip_chars (rev B) = rev B).
  { destruct B as [|b r] eqn:EB; [reflexivity|].
    destruct (lstrip_head (chars s)) as [HA|[a [A' [HA Ha]]]].
    - exfalso. unfold B, A in EB. rewrite HA in EB. discriminate.
    - fold A in HA. destruct (lstrip_suffix (rev A)) as [p Hp]. fold B in Hp.
      rewrite HA in Hp. cbn [rev] in Hp. rewrite EB in Hp.
      destruct (exists_last (l := b :: r) ltac:(discriminate)) as [B0 [b' Hl]].
      rewrite Hl in Hp. rewrite app_assoc in Hp. apply app_inj_tail in Hp as [_ <-].
      rewrite Hl, rev_app_distr. cbn [rev app]. apply lstrip_nonspace. exact Ha. }
  rewrite HB, rev_involutive. unfold B. rewrite lstrip_idem. reflexivity.
Qed.

Lemma py_strip_empty : py_strip "" = "".
Proof. reflexivity. Qed.

(** ** [npm_available] and the parsing of [npm ls] output *)

(** X1: npm counts as available exactly when [npm -v] runs, exits with
    status 0 and prints something other than whitespace. *)
Theorem npm_available_iff (P : procs) (cwd : path) :
  npm_available P cwd = true
  <-> exists out err, P ["npm"; "-v"] cwd = Ran 0%Z out err /\ py_strip out <> "".
Proof.
  unfold npm_available, run. destruct (P ["npm"; "-v"] cwd) as [code out err| |msg].
  - rewrite py_strip_idem. split.
    + intros H. apply andb_true_iff in H as [Hc Ho]. apply Z.eqb_eq in Hc. subst code.
      exists out, err. split; [reflexivity|]. intros He. rewrite He in Ho. discriminate.
    + intros [o [e [H Hne]]]. inversion H; subst. cbn [Z.eqb andb].
      destruct (py_strip o); [contradiction | reflexivity].
  - split; [discriminate | intros [o [e [H _]]]; discriminate].
  - split; [discriminate | intros [o [e [H _]]]; discriminate].
Qed.

Lemma npm_ls_deps_empty (code : Z) : npm_ls_deps code "" = Ok [].
Proof. unfold npm_ls_deps. destruct (Z.eqb code 0); reflexivity. Qed.

(** X2: when [npm -g ls] cannot be started or prints nothing but
    whitespace, the global list is empty whatever the exit status; no
    exception is raised. *)
Theorem global_list_silent_npm (P : procs) (cwd : path) :
  (forall code out err, P global_ls_cmd cwd = Ran code out err -> py_strip out = "") ->
  fst (get_global_npm_list P cwd) = Ok [].
Proof.
  intros H. unfold get_global_npm_list, run.
  destruct (P global_ls_cmd cwd) as [code out err| |msg] eqn:E; cbn [fst].
  - rewrite (H code out err eq_refl). apply npm_ls_deps_empty.
  - apply npm_ls_deps_empty.
  - apply npm_ls_deps_empty.
Qed.

Lemma global_list_silent_npm_witness :
  fst (get_global_npm_list (answers [(global_ls_cmd, Ran 1%Z "   " "npm ERR! missing")]) []) = Ok [].
Proof.
  apply global_list_silent_npm. intros code out err H. vm_compute in H.
  inversion H; subst. vm_compute. reflexivity.
Defined.

Lemma versions_of_objs (items : list (string * json)) :
  (forall kv, In kv items -> is_obj (snd kv) = true) ->
  versions_of items = Ok (map (fun kv => (fst kv, info_version (snd kv))) items).
Proof.
  induction items as [|[n info] r IH]; intros H; [reflexivity|].
  cbn [versions_of]. destruct info as [| | | | |ikvs];
    try (specialize (H (n, _) (or_introl eq_refl)); discriminate H).
  rewrite IH by (intros kv Hk; apply H; right; exact Hk). reflexivity.
Qed.

Lemma versions_of_non_obj (items : list (string * json)) kv :
  In kv items -> is_obj (snd kv) = false -> versions_of items = Raise AttributeError.
Proof.
  induction items as [|[n info] r IH]; intros Hin Hk; [destruct Hin|].
  cbn [versions_of]. destruct Hin as [<-|Hin].
  - destruct info; try reflexivity. discriminate Hk.
  - destruct info; try reflexivity. rewrite (IH Hin Hk). reflexivity.
Qed.

(** X3: once [npm ls] output is non-empty and parses as JSON, its exit
    status no longer matters.  A top-level value that is not an object
    raises [AttributeError]; an absent or false [dependencies] gives the
    empty mapping; a [dependencies] object whose records are all objects
    gives each name with its record's [version] (default [""]), in order;
    a record that is not an object, or a true [dependencies] value that is
    not an object, raises [AttributeError]. *)
Theorem npm_ls_parsed (code : Z) (out : string) (j : json) :
  str_truthy out = true -> json_loads out = Some j ->
  (is_obj j = false -> npm_ls_deps code out = Raise AttributeError)
  /\ (forall kvs, j = JObj kvs ->
       (json_truthy (obj_get kvs "dependencies" (JObj [])) = false -> npm_ls_deps code out = Ok [])
       /\ (forall items, obj_get kvs "dependencies" (JObj []) = JObj items ->
             (forall kv, In kv items -> is_obj (snd kv) = true) ->
             npm_ls_deps code out = Ok (map (fun kv => (fst kv, info_version (snd kv))) items))
       /\ (forall items kv, obj_get kvs "dependencies" (JObj []) = JObj items ->
             In kv items -> is_obj (snd kv) = false ->
             npm_ls_deps code out = Raise AttributeError)
       /\ (is_obj (obj_get kvs "dependencies" (JObj [])) = false ->
           json_truthy (obj_get kvs "dependencies" (JObj [])) = true ->
           npm_ls_deps code out = Raise AttributeError)).
Proof.
  intros Ht Hj. unfold npm_ls_deps. rewrite Ht, Hj. rewrite andb_false_r. cbn [bind].
  split; [destruct j; try reflexivity; discriminate|].
  intros kvs ->. split; [|split; [|split]].
  - intros Hf. rewrite Hf. reflexivity.
  - intros items Hd Hall. rewrite Hd. destruct items as [|kv items].
    + reflexivity.
    + cbn [json_truthy]. apply versions_of_objs. exact Hall.
  - intros items kv Hd Hin Hk. rewrite Hd. destruct items as [|kv0 items]; [destruct Hin|].
    cbn [json_truthy]. exact (versions_of_non_obj _ kv Hin Hk).
  - intros Hno Htr. rewrite Htr. destruct (obj_get kvs "dependencies" (JObj [])); try reflexivity.
    discriminate Hno.
Qed.

Lemma npm_ls_parsed_witness :
  npm_ls_deps 1%Z ls_object_sample = Ok [("left-pad", JStr "1.3.0"); ("x", JStr "")].
Proof.
  destruct (npm_ls_parsed 1%Z ls_object_sample (JObj [("dependencies", JObj ls_object_items)]))
    as [_ H]; [reflexivity | vm_compute; reflexivity |].
  destruct (H _ eq_refl) as [_ [H2 _]].
  apply (H2 ls_object_items); [reflexivity|].
  intros kv Hin. destruct Hin as [<-|[<-|[]]]; reflexivity.
Defined.

(** ** [load_impacted_packages] *)

Lemma get_strip_stripped row k s : get_strip row k = Ok s -> py_strip s = s.
Proof.
  unfold get_strip. destruct (pd_get okey_eqb (Some k) row) as [[v| |l]|];
    intros H; inversion H; apply py_strip_idem.
Qed.

Lemma get_or_strip_stripped row k s : get_or_strip row k = Ok s -> py_strip s = s.
Proof.
  unfold get_or_strip. destruct (pd_get okey_eqb (Some k) row) as [[v| |[|x l]]|];
    intros H; inversion H; apply py_strip_idem.
Qed.

(** X4: every entry [load_impacted_packages] returns has a non-empty
    package name, and its name and version carry no surrounding
    whitespace. *)
Theorem load_entries_stripped (text : string) (l : list entry) :
  load_impacted_packages text = Ok l ->
  forall e, In e l ->
    e_package_name e <> "" /\ py_strip (e_package_name e) = e_package_name e
    /\ py_strip (e_version e) = e_version e.
Proof.
  unfold load_impacted_packages. destruct (csv_read _ text) as [rows|]; [|discriminate].
  destruct (dict_reader rows) as [fns drows].
  set (nk := or_else _ _). set (vk := or_else _ _).
  set (Inv := fun l : list entry => forall e, In e l ->
    e_package_name e <> "" /\ py_strip (e_package_name e) = e_package_name e
    /\ py_strip (e_version e) = e_version e).
  intros Hl. cut (Inv l); [exact (fun h => h)|]. revert Hl.
  assert (H0 : forall l0, @Ok (list entry) [] = Ok l0 -> Inv l0).
  { intros l0 H e He. inversion H; subst. destruct He. }
  revert H0. generalize (@Ok (list entry) []) as acc.
  induction drows as [|row r IH]; intros acc Hacc H; cbn [fold_left] in H.
  - exact (Hacc l H).
  - refine (IH _ _ H). clear IH H. intros l1 H1.
    destruct acc as [l0|e]; cbn [bind] in H1; [|discriminate].
    destruct (get_strip row nk) as [s|e] eqn:Es; cbn [bind] in H1; [|discriminate].
    destruct (negb (str_truthy s)) eqn:Et.
    + inversion H1; subst. exact (Hacc l1 eq_refl).
    + destruct (get_or_strip row vk) as [v|e] eqn:Ev; cbn [bind] in H1; [|discriminate].
      inversion H1; subst. intros e He. apply in_app_or in He as [He|[<-|[]]].
      * exact (Hacc l0 eq_refl e He).
      * cbn [e_package_name e_version]. split; [|split].
        -- intros ->. discriminate Et.
        -- exact (get_strip_stripped _ _ _ Es).
        -- exact (get_or_strip_stripped _ _ _ Ev).
Qed.

Lemma load_entries_stripped_witness :
  e_package_name (mkEntry "evil-pkg" "9.9.9") <> ""
  /\ py_strip (e_package_name (mkEntry "evil-pkg" "9.9.9"))
     = e_package_name (mkEntry "evil-pkg" "9.9.9")
  /\ py_strip (e_version (mkEntry "evil-pkg" "9.9.9"))
     = e_version (mkEntry "evil-pkg" "9.9.9").
Proof.
  apply (load_entries_stripped "Name,Version
 evil-pkg , 9.9.9
,1.0
other,
" [mkEntry "evil-pkg" "9.9.9"; mkEntry "other" ""]).
  - vm_compute. reflexivity.
  - left. reflexivity.
Defined.

Section DictKeys.
Context {K V : Type} (keqb : K -> K -> bool).



End DictKeys.











(** ** Filesystem effects of [write_findings_csv] *)

Lemma pd_get_app {K V} (keqb : K -> K -> bool) (k : K) (d1 d2 : list (K * V)) :
  pd_get keqb k (d1 ++ d2) = match pd_get keqb k d1 with Some v => Some v | None => pd_get keqb k d2 end.
Proof.
  induction d1 as [|[k' v'] r IH]; [reflexivity|]. cbn [app pd_get].
  destruct (keqb k k'); [reflexivity | exact IH].
Qed.

Lemma lookup_child_set_other (es : list (string * node)) s t c :
  t <> s -> lookup_child (pd_set String.eqb s c es) t = lookup_child es t.
Proof.
  intros Hts. unfold lookup_child.
  induction es as [|[k' v'] r IH]; cbn [pd_set pd_get].
  - apply String.eqb_neq in Hts. rewrite Hts. reflexivity.
  - destruct (String.eqb s k') eqn:E; cbn [pd_get].
    + apply String.eqb_eq in E. subst k'.
      apply String.eqb_neq in Hts. rewrite Hts. reflexivity.
    + destruct (String.eqb t k'); [reflexivity | exact IH].
Qed.

Lemma lookup_child_app_other (es : list (string * node)) s t c :
  t <> s -> lookup_child (es ++ [(s, c)]) t = lookup_child es t.
Proof.
  intros Hts. unfold lookup_child. rewrite pd_get_app.
  destruct (pd_get String.eqb t es); [reflexivity|]. cbn [pd_get].
  apply String.eqb_neq in Hts. rewrite Hts. reflexivity.
Qed.

Lemma lookup_child_set_same (es : list (string * node)) s c :
  lookup_child (pd_set String.eqb s c es) s = Some c.
Proof. apply pd_get_set_same. apply String.eqb_refl. Qed.

Lemma lookup_child_app_same (es : list (string * node)) s c :
  lookup_child es s = None -> lookup_child (es ++ [(s, c)]) s = Some c.
Proof. apply pd_get_app_new. apply String.eqb_refl. Qed.

Lemma lookup_file_nil (c : string) q c0 : lookup (File c) q = Some (File c0) -> q = [].
Proof. destruct q; [reflexivity | discriminate]. Qed.

(** [os.makedirs] keeps every file and creates none. *)
Lemma makedirs_files (p : path) (nd nd' : node) :
  makedirs nd p = Some nd' ->
  forall q c0, lookup nd' q = Some (File c0) <-> lookup nd q = Some (File c0).
Proof.
  revert nd nd'. induction p as [|s p IH]; intros nd nd' H q c0.
  - destruct nd; inversion H; subst. reflexivity.
  - destruct nd as [c|es]; [discriminate|]. cbn [makedirs] in H.
    destruct q as [|t q]; [destruct (lookup_child es s); destruct makedirs in H;
                           cbn [obind] in H; try discriminate; inversion H; subst;
                           split; discriminate|].
    destruct (lookup_child es s) as [ch|] eqn:Es.
    + destruct (makedirs ch p) as [ch'|] eqn:Em; cbn [obind] in H; [|discriminate].
      inversion H; subst. cbn [lookup].
      destruct (String.eqb t s) eqn:Ets.
      * apply String.eqb_eq in Ets. subst t. rewrite lookup_child_set_same, Es.
        exact (IH _ _ Em q c0).
      * apply String.eqb_neq in Ets. rewrite lookup_child_set_other by exact Ets. reflexivity.
    + destruct (makedirs (Dir []) p) as [ch'|] eqn:Em; cbn [obind] in H; [|discriminate].
      inversion H; subst. cbn [lookup].
      destruct (String.eqb t s) eqn:Ets.
      * apply String.eqb_eq in Ets. subst t. rewrite lookup_child_app_same, Es by exact Es.
        rewrite (IH _ _ Em q c0). destruct q; cbn; split; discriminate.
      * apply String.eqb_neq in Ets. rewrite lookup_child_app_other by exact Ets. reflexivity.
Qed.

(** [open(p, "w")] keeps every file but [p] and creates none but [p]. *)
Lemma set_file_files (p : path) (nd nd' : node) (c : string) :
  set_file nd p c = Some nd' ->
  forall q c0, q <> p -> (lookup nd' q = Some (File c0) <-> lookup nd q = Some (File c0)).
Proof.
  revert nd nd'. induction p as [|s p IH]; intros nd nd' H q c0 Hq.
  - destruct nd; discriminate.
  - destruct nd as [c1|es]; [discriminate|].
    destruct q as [|t q].
    { destruct p as [|s2 p'].
      - cbn [set_file] in H. destruct (lookup_child es s) as [[c2|es2]|]; inversion H; subst;
          split; discriminate.
      - rewrite set_file_deep in H. destruct (lookup_child es s) as [ch|]; [|discriminate].
        destruct (set_file ch (s2 :: p') c); cbn [obind] in H; inversion H; subst.
        split; discriminate. }
    destruct (String.eqb t s) eqn:Ets.
    2:{ apply String.eqb_neq in Ets. destruct p as [|s2 p'].
        - cbn [set_file] in H. destruct (lookup_child es s) as [[c2|es2]|]; inversion H; subst;
            cbn [lookup].
          + rewrite lookup_child_set_other by exact Ets. reflexivity.
          + rewrite lookup_child_app_other by exact Ets. reflexivity.
        - rewrite set_file_deep in H. destruct (lookup_child es s) as [ch|]; [|discriminate].
          destruct (set_file ch (s2 :: p') c); cbn [obind] in H; inversion H; subst.
          cbn [lookup]. rewrite lookup_child_set_other by exact Ets. reflexivity. }
    apply String.eqb_eq in Ets. subst t.
    assert (Hq' : q <> p) by (intros ->; apply Hq; reflexivity).
    destruct p as [|s2 p'].
    + cbn [set_file] in H. destruct (lookup_child es s) as [[c2|es2]|] eqn:Es; inversion H; subst;
        cbn [lookup].
      * rewrite lookup_child_set_same, Es. destruct q; [contradiction|]. split; discriminate.
      * rewrite lookup_child_app_same, Es by exact Es. destruct q; [contradiction|].
        split; discriminate.
    + rewrite set_file_deep in H. destruct (lookup_child es s) as [ch|] eqn:Es; [|discriminate].
      destruct (set_file ch (s2 :: p') c) as [ch'|] eqn:E2; cbn [obind] in H; inversion H; subst.
      cbn [lookup]. rewrite lookup_child_set_same, Es. exact (IH _ _ E2 q c0 Hq').
Qed.

Lemma write_files_kept {V : Type} (cell : V -> string) (fs : node)
  (findings : list (finding V)) (fs' : node) :
  write_findings_csv cell fs findings = Some fs' ->
  forall q c, q <> FINDINGS_CSV -> (lookup fs' q = Some (File c) <-> lookup fs q = Some (File c)).
Proof.
  unfold write_findings_csv. destruct (makedirs fs FINDINGS_DIR) as [fs1|] eqn:Em; [|discriminate].
  cbn [obind]. intros H q c Hq.
  rewrite (set_file_files _ _ _ _ H q c Hq). exact (makedirs_files _ _ _ Em q c).
Qed.

(** X6: writing the report creates, changes or removes no file other than
    the report itself: every other path holds the same file before and
    after (the only other change is the directories created on the way). *)
Theorem write_findings_csv_only_report {V : Type} (cell : V -> string) (fs : node)
  (findings : list (finding V)) (fs' : node) :
  write_findings_csv cell fs findings = Some fs' ->
  forall q c, q <> FINDINGS_CSV -> (lookup fs' q = Some (File c) <-> lookup fs q = Some (File c)).
Proof. apply write_files_kept. Qed.

Lemma write_findings_csv_only_report_witness :
  exists fs', write_findings_csv (fun s : string => s) host_fs [] = Some fs'
    /\ (lookup fs' ["etc"; "hosts"] = Some (File "127.0.0.1 localhost")
        <-> lookup host_fs ["etc"; "hosts"] = Some (File "127.0.0.1 localhost")).
Proof.
  destruct (write_findings_csv (fun s : string => s) host_fs []) as [fs'|] eqn:E;
    [|vm_compute in E; discriminate].
  exists fs'. split; [reflexivity|].
  apply (write_findings_csv_only_report (fun s : string => s) host_fs [] fs' E).
  discriminate.
Defined.

(** ** [main] *)

Lemma compare_sound {V : Type} (imp : list entry) (inst : list (string * V)) loc f :
  In f (compare imp inst loc) ->
  existsb (fun i => String.eqb (e_package_name i) (package_name f)) imp = true
  /\ impacted_version_from_csv f = first_loaded_version (package_name f) imp
  /\ location f = loc.
Proof.
  unfold compare. rewrite (compare_fold imp inst loc []). cbn [app].
  intros H. apply in_map_iff in H as [nv [<- Hnv]]. apply filter_In in Hnv as [_ Hm].
  cbn [package_name impacted_version_from_csv location]. auto.
Qed.

Lemma get_local_trace (P : procs) (fs : node) (cwd proj : path) :
  snd (get_local_npm_list P fs cwd proj) = []
  \/ snd (get_local_npm_list P fs cwd proj) = [(local_ls_cmd, cwd)].
Proof.
  unfold get_local_npm_list, local_fallback.
  destruct (run P local_ls_cmd cwd) as [[code out] err].
  destruct (lookup fs (proj ++ ["node_modules"])) as [[c|ents]|]; [right; reflexivity| |right; reflexivity].
  destruct (scan_node_modules ents); [right | left]; reflexivity.
Qed.

Lemma scan_projects_trace (P : procs) (fs : node) (imp : list entry) (projects : list path)
  fnd tr res tr2 :
  scan_projects P fs imp projects fnd tr = (res, tr2) ->
  forall x, In x tr2 -> In x tr \/ (fst x = local_ls_cmd /\ In (snd x) projects).
Proof.
  revert fnd tr. induction projects as [|proj rest IH]; intros fnd tr H x Hx.
  - inversion H; subst. left. exact Hx.
  - cbn [scan_projects] in H.
    destruct (get_local_npm_list P fs proj proj) as [li tr1] eqn:El.
    assert (Htr1 : forall y, In y tr1 -> fst y = local_ls_cmd /\ In (snd y) (proj :: rest)).
    { intros y Hy. destruct (get_local_trace P fs proj proj) as [E|E]; rewrite El in E;
        cbn [snd] in E; subst tr1; [destruct Hy|].
      destruct Hy as [<-|[]]. split; [reflexivity | left; reflexivity]. }
    destruct li as [li|e].
    + destruct (IH _ _ H x Hx) as [H1|[H1 H2]].
      * apply in_app_or in H1 as [H1|H1]; [left; exact H1 | right; exact (Htr1 x H1)].
      * right. split; [exact H1 | right; exact H2].
    + inversion H; subst. apply in_app_or in Hx as [H1|H1]; [left; exact H1 | right; exact (Htr1 x H1)].
Qed.

Lemma scan_projects_findings (P : procs) (fs : node) (imp : list entry) (projects : list path)
  fnd tr fnd' tr2 (Q : finding json -> Prop) :
  scan_projects P fs imp projects fnd tr = (Ok fnd', tr2) ->
  (forall f, In f fnd -> Q f) ->
  (forall proj li f, In proj projects -> In f (compare imp li ("local:" ++ path_str proj)%string) -> Q f) ->
  forall f, In f fnd' -> Q f.
Proof.
  revert fnd tr. induction projects as [|proj rest IH]; intros fnd tr H Hf Hl.
  - inversion H; subst. exact Hf.
  - cbn [scan_projects] in H.
    destruct (get_local_npm_list P fs proj proj) as [[li|e] tr1]; [|discriminate].
    refine (IH _ _ H _ _).
    + intros f Hin. apply in_app_or in Hin as [Hin|Hin]; [exact (Hf f Hin)|].
      exact (Hl proj _ f (or_introl eq_refl) Hin).
    + intros proj' li' f Hp Hin. exact (Hl proj' li' f (or_intror Hp) Hin).
Qed.





(** X10: the only commands [main] starts are [npm -v] and [npm -g ls] in
    the working directory it was started in, and [npm ls] inside a project
    directory discovered under the given roots. *)
Theorem main_commands (P : procs) (fs : node) (cwd : path) (a : args) :
  forall x, In x (commands (main P fs cwd a)) ->
    x = (["npm"; "-v"], cwd) \/ x = (global_ls_cmd, cwd)
    \/ (fst x = local_ls_cmd /\ In (snd x) (discover_package_json_roots fs (roots_arg a))).
Proof.
  assert (Hg : forall y, In y (snd (get_global_npm_list P cwd)) -> y = (global_ls_cmd, cwd)).
  { unfold get_global_npm_list. destruct (run P global_ls_cmd cwd) as [[code out] err].
    intros y [<-|[]]. reflexivity. }
  assert (H0 : forall y, In y ([(["npm"; "-v"], cwd)] ++ snd (get_global_npm_list P cwd)) ->
     y = (["npm"; "-v"], cwd) \/ y = (global_ls_cmd, cwd)
     \/ (fst y = local_ls_cmd /\ In (snd y) (discover_package_json_roots fs (roots_arg a)))).
  { intros y Hy. apply in_app_or in Hy as [[<-|[]]|Hy]; [left; reflexivity|].
    right. left. exact (Hg y Hy). }
  unfold main.
  destruct (lookup fs (csv_arg a)) as [[text|es]|]; cbn [commands]; try (intros x []).
  destruct (load_impacted_packages text) as [[|i imp]|e]; cbn [commands]; try (intros x []).
  destruct (negb (npm_available P cwd)).
  - destruct (write_findings_csv csv_cell fs []); cbn [commands];
      intros x [<-|[]]; left; reflexivity.
  - destruct (get_global_npm_list P cwd) as [gres tr1] eqn:Eg. cbn [snd] in H0.
    destruct gres as [gi|e]; [|cbn [commands]; exact H0].
    destruct (scan_projects _ _ _ _ _ _) as [res tr2] eqn:Es.
    assert (Hs : forall x, In x tr2 -> x = (["npm"; "-v"], cwd) \/ x = (global_ls_cmd, cwd)
       \/ (fst x = local_ls_cmd /\ In (snd x) (discover_package_json_roots fs (roots_arg a)))).
    { intros x Hx. destruct (scan_projects_trace _ _ _ _ _ _ _ _ Es x Hx) as [H1|[H1 H2]].
      - exact (H0 x H1).
      - right. right. split; [exact H1|].
        destruct (roots_arg a) as [|r rs]; [destruct H2 | exact H2]. }
    destruct res as [fnd'|e]; cbn [commands]; [|exact Hs].
    destruct (write_findings_csv csv_cell fs fnd'); exact Hs.
Qed.

(** X11: when [main] ends with status 0, the report holds the header and
    one row per finding, and every finding names a package of the loaded
    impacted list, carries the version of its first entry in that list,
    and is located either [global] or [local:] followed by a project
    directory discovered under the given roots. *)
Theorem main_report_sound (P : procs) (fs : node) (cwd : path) (a : args) (text : string) :
  lookup fs (csv_arg a) = Some (File text) ->
  ending (main P fs cwd a) = Exit 0 ->
  exists imp findings,
    load_impacted_packages text = Ok imp /\ imp <> []
    /\ lookup (final_fs (main P fs cwd a)) FINDINGS_CSV
       = Some (File (str (csv_row report_fieldnames
                          ++ concat (map (fun f => csv_row (finding_row csv_cell f)) findings))))
    /\ forall f, In f findings ->
         existsb (fun i => String.eqb (e_package_name i) (package_name f)) imp = true
         /\ impacted_version_from_csv f = first_loaded_version (package_name f) imp
         /\ (location f = "global"
             \/ exists proj, In proj (discover_package_json_roots fs (roots_arg a))
                            /\ location f = ("local:" ++ path_str proj)%string).
Proof.
  intros Hcsv. unfold main. rewrite Hcsv.
  destruct (load_impacted_packages text) as [[|i imp]|e]; cbn [ending]; try discriminate.
  destruct (negb (npm_available P cwd)).
  - destruct (write_findings_csv csv_cell fs []) as [fs'|] eqn:Ew; cbn [ending final_fs];
      [|discriminate].
    intros _. exists (i :: imp), []. split; [reflexivity|]. split; [discriminate|]. split.
    + exact (write_findings_csv_lookup csv_cell fs [] fs' Ew).
    + intros f [].
  - destruct (get_global_npm_list P cwd) as [[gi|e] tr1]; cbn [ending]; [|discriminate].
    destruct (scan_projects _ _ _ _ _ _) as [[fnd'|e] tr2] eqn:Es; cbn [ending]; [|discriminate].
    destruct (write_findings_csv csv_cell fs fnd') as [fs'|] eqn:Ew; cbn [ending final_fs];
      [|discriminate].
    intros _. exists (i :: imp), fnd'. split; [reflexivity|]. split; [discriminate|]. split.
    + exact (write_findings_csv_lookup csv_cell fs fnd' fs' Ew).
    + refine (scan_projects_findings _ _ _ _ _ _ _ _ _ Es _ _).
      * intros f Hf. destruct (compare_sound _ _ _ f Hf) as [H1 [H2 H3]].
        split; [exact H1|]. split; [exact H2 | left; exact H3].
      * intros proj li f Hp Hf. destruct (compare_sound _ _ _ f Hf) as [H1 [H2 H3]].
        split; [exact H1|]. split; [exact H2|]. right. exists proj. split; [|exact H3].
        destruct (roots_arg a) as [|r rs]; [destruct Hp | exact Hp].
Qed.

Lemma main_report_sound_witness :
  exists imp findings,
    load_impacted_packages "package_name,version
evil-pkg,9.9.9
" = Ok imp /\ imp <> []
    /\ lookup (final_fs (main e2e_procs e2e_fs [] (mkArgs ["data"; "impacted.csv"] []))) FINDINGS_CSV
       = Some (File (str (csv_row report_fieldnames
                          ++ concat (map (fun f => csv_row (finding_row csv_cell f)) findings))))
    /\ forall f, In f findings ->
         existsb (fun i => String.eqb (e_package_name i) (package_name f)) imp = true
         /\ impacted_version_from_csv f = first_loaded_version (package_name f) imp
         /\ (location f = "global"
             \/ exists proj, In proj (discover_package_json_roots e2e_fs [])
                            /\ location f = ("local:" ++ path_str proj)%string).
Proof.
  apply (main_report_sound e2e_procs e2e_fs [] (mkArgs ["data"; "impacted.csv"] [])).
  - vm_compute. reflexivity.
  - vm_compute. reflexivity.
Defined.




Lemma main_commands_witness :
  (global_ls_cmd, @nil string) = (["npm"; "-v"], @nil string)
  \/ (global_ls_cmd, @nil string) = (global_ls_cmd, @nil string)
  \/ (fst (global_ls_cmd, @nil string) = local_ls_cmd
      /\ In (snd (global_ls_cmd, @nil string)) (discover_package_json_roots e2e_fs [])).
Proof.
  apply (main_commands e2e_procs e2e_fs [] (mkArgs ["data"; "impacted.csv"] [])).
  vm_compute. right. left. reflexivity.
Defined.

(** ** Local enumeration never aborts on a bad entry *)

(** X13: an entry of [node_modules] that is not a scope directory and has
    no [package.json] file, or whose [package.json] is not a JSON object
    or has a [name] that cannot be a dict key, is passed over: removing it
    does not change what the manifest scan finds. *)
Theorem unreadable_entry_ignored (pre post : list (string * node)) (n : string) (nd : node) :
  is_dir nd && py_startswith n "@" = false ->
  (manifest_of nd = None
   \/ exists c, manifest_of nd = Some c /\ manifest_unusable c n = true) ->
  scan_node_modules (pre ++ (n, nd) :: post) = scan_node_modules (pre ++ post).
Proof.
  intros Hs Hm. unfold scan_node_modules. rewrite !fold_left_app. cbn [fold_left].
  f_equal. unfold scan_entry. destruct (py_startswith n "."); [reflexivity|]. rewrite Hs.
  destruct Hm as [->|[c [-> Hu]]]; [reflexivity|].
  unfold manifest_unusable in Hu. unfold read_manifest.
  destruct (json_loads c) as [[| | | | |meta]|]; try reflexivity.
  apply negb_true_iff in Hu. rewrite Hu. reflexivity.
Qed.

Lemma unreadable_entry_ignored_witness :
  scan_node_modules broken_node_modules
  = scan_node_modules ([("README", File "notes")] ++
      [("foo", Dir [("package.json", File (dq "{'name':'foo','version':'1.2.3'}"))])]).
Proof.
  apply (unreadable_entry_ignored [] _ "broken" (Dir [("package.json", File "{not json")])).
  - reflexivity.
  - right. exists "{not json"%string. split; vm_compute; reflexivity.
Defined.

(** ** When writing the report fails *)

Lemma lookup_empty_dir (q : path) es : lookup (Dir []) q = Some (Dir es) -> q = [].
Proof. destruct q; [reflexivity | discriminate]. Qed.

(** [os.makedirs] fails exactly when one of the path's prefixes is a file. *)
Lemma makedirs_none (p : path) (nd : node) :
  makedirs nd p = None
  <-> exists k c, k <= length p /\ lookup nd (firstn k p) = Some (File c).
Proof.
  revert nd. induction p as [|s p IH]; intros nd.
  - destruct nd as [c|es]; cbn.
    + split; [intros _; exists 0, c; split; [lia | reflexivity] | reflexivity].
    + split; [discriminate|]. intros [k [c [Hk Hl]]]. destruct k; [discriminate | lia].
  - destruct nd as [c|es].
    + cbn [makedirs]. split; [intros _; exists 0, c; split; [lia | reflexivity] | reflexivity].
    + cbn [makedirs]. destruct (lookup_child es s) as [ch|] eqn:Es.
      * destruct (makedirs ch p) as [ch'|] eqn:Em; cbn [obind].
        -- split; [discriminate|]. intros [k [c [Hk Hl]]].
           destruct k as [|k]; [discriminate|]. cbn [firstn lookup] in Hl. rewrite Es in Hl.
           assert (makedirs ch p = None) as Hn.
           { apply IH. exists k, c. split; [cbn [length] in Hk; lia | exact Hl]. }
           congruence.
        -- split; [intros _|reflexivity].
           destruct (proj1 (IH ch) Em) as [k [c [Hk Hl]]].
           exists (S k), c. split; [cbn [length]; lia|]. cbn [firstn lookup]. rewrite Es. exact Hl.
      * destruct (makedirs (Dir []) p) as [ch'|] eqn:Em; cbn [obind].
        -- split; [discriminate|]. intros [k [c [Hk Hl]]].
           destruct k as [|k]; [discriminate|]. cbn [firstn lookup] in Hl. rewrite Es in Hl.
           discriminate.
        -- exfalso. destruct (proj1 (IH (Dir [])) Em) as [k [c [_ Hl]]].
           destruct (firstn k p); discriminate.
Qed.

Lemma makedirs_dir (p : path) (nd nd' : node) :
  makedirs nd p = Some nd' -> exists es, lookup nd' p = Some (Dir es).
Proof.
  revert nd nd'. induction p as [|s p IH]; intros nd nd' H.
  - destruct nd as [c|es]; inversion H; subst. exists es. reflexivity.
  - destruct nd as [c|es]; [discriminate|]. cbn [makedirs] in H.
    destruct (lookup_child es s) as [ch|] eqn:Es.
    + destruct (makedirs ch p) as [ch'|] eqn:Em; cbn [obind] in H; inversion H; subst.
      cbn [lookup]. rewrite lookup_child_set_same. exact (IH _ _ Em).
    + destruct (makedirs (Dir []) p) as [ch'|] eqn:Em; cbn [obind] in H; inversion H; subst.
      cbn [lookup]. rewrite lookup_child_app_same by exact Es. exact (IH _ _ Em).
Qed.

(** Below the directories [os.makedirs] made, what is a directory stays one
    and nothing new is. *)
Lemma makedirs_child_dir (p : path) (nd nd' : node) (f : string) :
  makedirs nd p = Some nd' ->
  (exists es, lookup nd' (p ++ [f]) = Some (Dir es))
  <-> (exists es, lookup nd (p ++ [f]) = Some (Dir es)).
Proof.
  revert nd nd'. induction p as [|s p IH]; intros nd nd' H.
  - destruct nd as [c|es]; inversion H; subst. reflexivity.
  - destruct nd as [c|es]; [discriminate|]. cbn [makedirs] in H.
    destruct (lookup_child es s) as [ch|] eqn:Es.
    + destruct (makedirs ch p) as [ch'|] eqn:Em; cbn [obind] in H; inversion H; subst.
      cbn [app lookup]. rewrite lookup_child_set_same, Es. exact (IH _ _ Em).
    + destruct (makedirs (Dir []) p) as [ch'|] eqn:Em; cbn [obind] in H; inversion H; subst.
      cbn [app lookup]. rewrite lookup_child_app_same, Es by exact Es.
      rewrite (IH _ _ Em). split; [|intros [es' E]; discriminate].
      intros [es' E]. apply lookup_empty_dir in E. destruct p; discriminate.
Qed.

(** [open(p / f, "w")] in an existing directory [p] fails exactly when
    [p / f] is a directory. *)
Lemma set_file_in_dir (p : path) (nd : node) (f c : string) es :
  lookup nd p = Some (Dir es) ->
  set_file nd (p ++ [f]) c = None <-> exists es', lookup nd (p ++ [f]) = Some (Dir es').
Proof.
  revert nd es. induction p as [|s p IH]; intros nd es Hl.
  - inversion Hl; subst. cbn [app set_file lookup].
    destruct (lookup_child es f) as [[c1|es1]|]; cbn [lookup].
    + split; [discriminate | intros [es' E]; discriminate].
    + split; [intros _; exists es1; reflexivity | reflexivity].
    + split; [discriminate | intros [es' E]; discriminate].
  - destruct nd as [c0|es0]; [discriminate|]. cbn [lookup] in Hl.
    destruct (lookup_child es0 s) as [ch|] eqn:Es; [|discriminate].
    cbn [app lookup]. rewrite Es.
    destruct (p ++ [f]) as [|s2 rest] eqn:Ep; [destruct p; discriminate|].
    rewrite set_file_deep, Es. pose proof (IH ch es Hl) as Hi. rewrite <- Hi.
    destruct (set_file ch (s2 :: rest) c); cbn [obind]; split; congruence.
Qed.

(** In the model, writing the report fails exactly in those two cases. *)
Lemma write_findings_csv_none_iff {V : Type} (cell : V -> string) (fs : node)
  (findings : list (finding V)) :
  write_findings_csv cell fs findings = None
  <-> (exists k c, k <= length FINDINGS_DIR /\ lookup fs (firstn k FINDINGS_DIR) = Some (File c))
      \/ (exists es, lookup fs FINDINGS_CSV = Some (Dir es)).
Proof.
  unfold write_findings_csv. destruct (makedirs fs FINDINGS_DIR) as [fs1|] eqn:Em; cbn [obind].
  - destruct (makedirs_dir _ _ _ Em) as [es Hd]. unfold FINDINGS_CSV.
    rewrite (set_file_in_dir FINDINGS_DIR fs1 "npm_findings.csv" _ es Hd).
    rewrite (makedirs_child_dir _ _ _ "npm_findings.csv" Em).
    split; [intros H; right; exact H|].
    intros [H|H]; [|exact H]. apply makedirs_none in H. congruence.
  - split; [intros _; left; apply makedirs_none; exact Em | reflexivity].
Qed.

(** X7: when a prefix of [/Library/Application Support/Security/intel]
    (the root included) is an existing file, or the report path itself is
    an existing directory, writing the report raises [OSError], whatever
    the findings. *)
Theorem write_findings_csv_fails {V : Type} (cell : V -> string) (fs : node)
  (findings : list (finding V)) :
  (exists k c, k <= length FINDINGS_DIR /\ lookup fs (firstn k FINDINGS_DIR) = Some (File c))
  \/ (exists es, lookup fs FINDINGS_CSV = Some (Dir es)) ->
  write_findings_csv cell fs findings = None.
Proof. intros H. apply write_findings_csv_none_iff. exact H. Qed.

Lemma write_findings_csv_fails_witness :
  write_findings_csv csv_cell (Dir [("Library", File "")]) [] = None.
Proof.
  apply write_findings_csv_fails. left. exists 1, "". split; [cbn; lia | reflexivity].
Defined.
